(** * ChatWindow: the live conversation feed of a support request

    A shallow embedding of [src/components/chat/ChatWindow.tsx].

    The component is a React function component.  Its behaviour is an
    event-driven state machine: React state ([useState]), refs ([useRef]),
    the timers and the subscription it owns, and the store calls that are
    still awaiting their result.  Every [async] function of the source is
    split at its single [await]: the part before it issues the store call
    and records a pending continuation, the part after it runs when the
    event [Resolve] delivers the store's reply.

    Two points of React's semantics matter and are modelled as they are:
    - the effect of lines 24-42 has the dependency list [[requestId]], so
      the functions it calls ([fetchMessages], [subscribeToMessages] and,
      from the interval, [silentRefreshMessages]) are those of the render in
      which the effect ran; the [messages] they read is the value of that
      render, kept here in a [Closure];
    - [setMessages] with a new array is always accepted and re-renders;
      the functional updater that returns [prev] itself is a bail-out. *)

From Stdlib Require Import List String Ascii ZArith Bool Arith Lia Sorted
  Permutation.
Import ListNotations.
Open Scope string_scope.

(** ** Data model *)

(** Joined columns [sender:sender_id(first_name, last_name, avatar_url)]. *)
Record Profile := {
  first_name : string;
  last_name : string;
  avatar_url : option string
}.

(** A row of [messages] as the component reads it.  [created_at] is a
    [TIMESTAMPTZ]; the store orders by the instant, which is kept here as an
    integer (microseconds since the epoch). *)
Record Message := {
  id : string;
  sender_id : string;
  request_id : option string;
  content : string;
  is_read : bool;
  created_at : Z;
  sender : option Profile
}.

(** The authenticated user of [useAuth()]; only [user.id] is read. *)
Record User := { user_id : string }.

(** What a store call resolves to: supabase's [{ data, error }]. *)
Inductive Reply :=
| ListReply (data : option (list Message)) (error : option string)
| SingleReply (data : option Message) (error : option string)
| InsertReply (error : option string).

(** The variables of a render that the effect's functions close over. *)
Record Closure := {
  c_requestId : string;
  c_messages : list Message
}.

(** A store call awaiting its reply, with what its continuation captured. *)
Inductive Pending :=
| PFetch (rid : string)
| PPoll (c : Closure)
| PPush (rid : string)
| PSend.

(** What the component does to the outside. *)
Inductive Output :=
| Select (rid : string)
| SelectSingle (mid : string)
| Insert (o_sender_id o_request_id o_content : string)
| ChannelSubscribe (rid : string)
| ChannelUnsubscribe (rid : string)
| SetMessages (l : list Message)
| ScrollToBottom
| ConsoleError
| ConsoleDebug.

Record ChatWindow := {
  requestId : string;
  user : option User;
  messages : list Message;
  newMessage : string;
  loading : bool;
  sending : bool;
  refreshInterval : option Closure;
  lastMessageCount : nat;
  isUserScrolling : bool;
  scrollTimeout : option Z;
  subscription : option string;
  sendScroll : nat;
  inflight : list Pending
}.

(** ** JavaScript helpers *)

(** White space and line terminators of [String.prototype.trim] among the
    code units U+0000..U+00FF. *)
Definition is_space (c : ascii) : bool :=
  let n := nat_of_ascii c in
  (((9 <=? n) && (n <=? 13)) || (n =? 32) || (n =? 160))%nat.

Fixpoint trimStart (s : string) : string :=
  match s with
  | EmptyString => EmptyString
  | String c r => if is_space c then trimStart r else s
  end.

Fixpoint trimEnd (s : string) : string :=
  match s with
  | EmptyString => EmptyString
  | String c r =>
      match trimEnd r with
      | EmptyString => if is_space c then EmptyString else String c EmptyString
      | r' => String c r'
      end
  end.

Definition trim (s : string) : string := trimEnd (trimStart s).

(** Truthiness of a string: [!s] holds for the empty string only. *)
Definition falsy (s : string) : bool :=
  match s with EmptyString => true | _ => false end.

(** ** Field updates *)

Definition with_messages (l : list Message) (n : nat) (s : ChatWindow) :=
  {| requestId := requestId s; user := user s; messages := l;
     newMessage := newMessage s; loading := loading s; sending := sending s;
     refreshInterval := refreshInterval s; lastMessageCount := n;
     isUserScrolling := isUserScrolling s; scrollTimeout := scrollTimeout s;
     subscription := subscription s; sendScroll := sendScroll s;
     inflight := inflight s |}.

Definition setNewMessage (v : string) (s : ChatWindow) :=
  {| requestId := requestId s; user := user s; messages := messages s;
     newMessage := v; loading := loading s; sending := sending s;
     refreshInterval := refreshInterval s;
     lastMessageCount := lastMessageCount s;
     isUserScrolling := isUserScrolling s; scrollTimeout := scrollTimeout s;
     subscription := subscription s; sendScroll := sendScroll s;
     inflight := inflight s |}.

Definition setLoading (b : bool) (s : ChatWindow) :=
  {| requestId := requestId s; user := user s; messages := messages s;
     newMessage := newMessage s; loading := b; sending := sending s;
     refreshInterval := refreshInterval s;
     lastMessageCount := lastMessageCount s;
     isUserScrolling := isUserScrolling s; scrollTimeout := scrollTimeout s;
     subscription := subscription s; sendScroll := sendScroll s;
     inflight := inflight s |}.

Definition setSending (b : bool) (s : ChatWindow) :=
  {| requestId := requestId s; user := user s; messages := messages s;
     newMessage := newMessage s; loading := loading s; sending := b;
     refreshInterval := refreshInterval s;
     lastMessageCount := lastMessageCount s;
     isUserScrolling := isUserScrolling s; scrollTimeout := scrollTimeout s;
     subscription := subscription s; sendScroll := sendScroll s;
     inflight := inflight s |}.

Definition with_scroll (scrolling : bool) (t : option Z) (s : ChatWindow) :=
  {| requestId := requestId s; user := user s; messages := messages s;
     newMessage := newMessage s; loading := loading s; sending := sending s;
     refreshInterval := refreshInterval s;
     lastMessageCount := lastMessageCount s;
     isUserScrolling := scrolling; scrollTimeout := t;
     subscription := subscription s; sendScroll := sendScroll s;
     inflight := inflight s |}.

Definition with_sendScroll (n : nat) (s : ChatWindow) :=
  {| requestId := requestId s; user := user s; messages := messages s;
     newMessage := newMessage s; loading := loading s; sending := sending s;
     refreshInterval := refreshInterval s;
     lastMessageCount := lastMessageCount s;
     isUserScrolling := isUserScrolling s; scrollTimeout := scrollTimeout s;
     subscription := subscription s; sendScroll := n;
     inflight := inflight s |}.

Definition with_inflight (p : list Pending) (s : ChatWindow) :=
  {| requestId := requestId s; user := user s; messages := messages s;
     newMessage := newMessage s; loading := loading s; sending := sending s;
     refreshInterval := refreshInterval s;
     lastMessageCount := lastMessageCount s;
     isUserScrolling := isUserScrolling s; scrollTimeout := scrollTimeout s;
     subscription := subscription s; sendScroll := sendScroll s;
     inflight := p |}.

Definition with_channels (rid : string) (i : option Closure)
    (sub : option string) (s : ChatWindow) :=
  {| requestId := rid; user := user s; messages := messages s;
     newMessage := newMessage s; loading := loading s; sending := sending s;
     refreshInterval := i;
     lastMessageCount := lastMessageCount s;
     isUserScrolling := isUserScrolling s; scrollTimeout := scrollTimeout s;
     subscription := sub; sendScroll := sendScroll s;
     inflight := inflight s |}.

Definition await (p : Pending) (s : ChatWindow) :=
  with_inflight (inflight s ++ [p])%list s.

(** ** Actions: a handler maps the component to its next state and to the
    outputs it produced, in order. *)

Definition Act := ChatWindow -> ChatWindow * list Output.

Definition skip : Act := fun s => (s, []).
Definition emit (o : Output) : Act := fun s => (s, [o]).
Definition modify (f : ChatWindow -> ChatWindow) : Act := fun s => (f s, []).
Definition seq (a b : Act) : Act :=
  fun s => (fst (b (fst (a s))), (snd (a s) ++ snd (b (fst (a s))))%list).

Declare Scope act_scope.
Delimit Scope act_scope with act.
Bind Scope act_scope with Act.
Notation "a ;; b" := (seq a b) (at level 61, right associativity) : act_scope.
Open Scope act_scope.

(** ** The handlers of the component *)

(** Lines 148-150.  The output records the call; it scrolls when
    [messagesEndRef] is attached. *)
Definition scrollToBottom : Act := emit ScrollToBottom.

(** Lines 44-50: the effect that runs when [messages] has changed. *)
Definition onMessagesChange : Act := fun s =>
  ((if negb (isUserScrolling s)
       && (lastMessageCount s <? List.length (messages s))%nat
    then scrollToBottom else skip) ;;
   modify (fun s => with_messages (messages s) (List.length (messages s)) s)) s.

(** [setMessages] with a new array: the state is replaced, the component
    re-renders and the effect on [messages] runs. *)
Definition setMessages (l : list Message) : Act :=
  emit (SetMessages l) ;;
  modify (fun s => with_messages l (lastMessageCount s) s) ;;
  onMessagesChange.

(** Lines 52-61: [fetchMessages] up to its [await]. *)
Definition fetchMessages (rid : string) : Act :=
  emit (Select rid) ;; modify (await (PFetch rid)).

(** Lines 63-69: [fetchMessages] after its [await]. *)
Definition fetchMessages_resume (r : Reply) : Act :=
  match r with
  | ListReply data None =>
      setMessages (match data with Some d => d | None => [] end) ;;
      modify (setLoading false)
  | ListReply _ (Some _) => emit ConsoleError ;; modify (setLoading false)
  | _ => skip
  end.

(** Lines 72-81: [silentRefreshMessages] up to its [await], in the closure
    [c] of the render that armed the interval. *)
Definition silentRefreshMessages (c : Closure) : Act :=
  emit (Select (c_requestId c)) ;; modify (await (PPoll c)).

(** Lines 83-92: [silentRefreshMessages] after its [await]; [messages] is
    the one of the closure. *)
Definition silentRefreshMessages_resume (c : Closure) (r : Reply) : Act :=
  match r with
  | ListReply (Some d) None =>
      if (List.length d =? List.length (c_messages c))%nat then skip
      else setMessages d
  | ListReply None None => skip
  | ListReply _ (Some _) => emit ConsoleDebug
  | _ => skip
  end.

(** Line 120: [prev.some(msg => msg.id === data.id)]. *)
Definition exists_ (d : Message) (prev : list Message) : bool :=
  existsb (fun msg => (id msg =? id d)%string) prev.

(** Lines 118-123: the updater given to [setMessages]. *)
Definition updater (d : Message) (prev : list Message) : list Message :=
  if exists_ d prev then prev else (prev ++ [d])%list.

(** Lines 95-127: [subscribeToMessages]. *)
Definition subscribeToMessages (rid : string) : Act :=
  emit (ChannelSubscribe rid) ;;
  modify (fun s =>
    with_channels (requestId s) (refreshInterval s) (Some rid) s).

(** Lines 106-115: the handler of an INSERT event up to its [await]. *)
Definition onInsert (payload_new_id : string) : Act := fun s =>
  match subscription s with
  | Some rid =>
      (emit (SelectSingle payload_new_id) ;; modify (await (PPush rid))) s
  | None => skip s
  end.

(** Lines 117-124: the handler after its [await].  When the updater returns
    [prev] itself React keeps the state and does not re-render. *)
Definition onInsert_resume (r : Reply) : Act := fun s =>
  match r with
  | SingleReply (Some d) None =>
      if exists_ d (messages s) then skip s
      else setMessages (updater d (messages s)) s
  | _ => skip s
  end.

(** Lines 130-146: [handleScroll].  The pending quiet-timer is replaced by
    a new one of 3000 ms. *)
Definition handleScroll (scrollTop scrollHeight clientHeight : Z) : Act :=
  let isAtBottom := (scrollTop + clientHeight >=? scrollHeight - 10)%Z in
  modify (with_scroll (negb isAtBottom) (Some 3000%Z)).

(** Lines 143-145: the callback of the quiet-timer. *)
Definition scrollTimeout_fired : Act := fun s =>
  match scrollTimeout s with
  | Some _ => modify (with_scroll false None) s
  | None => skip s
  end.

(** Lines 152-162: [handleSendMessage] up to its [await]. *)
Definition handleSendMessage : Act := fun s =>
  if falsy (trim (newMessage s)) then skip s
  else match user s with
       | None => skip s
       | Some u =>
           (modify (setSending true) ;;
            emit (Insert (user_id u) (requestId s) (trim (newMessage s))) ;;
            modify (await PSend)) s
       end.

(** Lines 164-175: [handleSendMessage] after its [await]; on success a
    timer of 100 ms is armed that calls [scrollToBottom]. *)
Definition handleSendMessage_resume (r : Reply) : Act :=
  match r with
  | InsertReply None =>
      modify (setNewMessage "") ;;
      modify (fun s => with_sendScroll (S (sendScroll s)) s) ;;
      modify (setSending false)
  | InsertReply (Some _) => emit ConsoleError ;; modify (setSending false)
  | _ => skip
  end.

(** Lines 168-170: the callback of the 100 ms timer. *)
Definition sendScroll_fired : Act := fun s =>
  match sendScroll s with
  | S n => (modify (with_sendScroll n) ;; scrollToBottom) s
  | O => skip s
  end.

(** Lines 24-31: the body of the effect, run in the current render. *)
Definition effect : Act := fun s =>
  (fetchMessages (requestId s) ;;
   subscribeToMessages (requestId s) ;;
   modify (fun s' =>
     with_channels (requestId s')
       (Some {| c_requestId := requestId s; c_messages := messages s |})
       (subscription s') s')) s.

(** Lines 33-41: the clean-up of the effect. *)
Definition cleanup : Act := fun s =>
  ((match subscription s with
    | Some rid => emit (ChannelUnsubscribe rid)
    | None => skip
    end) ;;
   modify (fun s' => with_channels (requestId s') None None s') ;;
   modify (fun s' => with_scroll (isUserScrolling s') None s')) s.

(** Lines 14-22 and the first run of the effects. *)
Definition initial (rid : string) (u : option User) : ChatWindow :=
  {| requestId := rid; user := u; messages := []; newMessage := "";
     loading := true; sending := false; refreshInterval := None;
     lastMessageCount := 0; isUserScrolling := false; scrollTimeout := None;
     subscription := None; sendScroll := 0; inflight := [] |}.

Definition mount (rid : string) (u : option User) : ChatWindow * list Output :=
  (effect ;; onMessagesChange) (initial rid u).

(** The parent renders the component with another [requestId] (line 42):
    the clean-up runs, then the effect in the new render.  The state is
    kept. *)
Definition setRequestId (rid : string) : Act := fun s =>
  if (rid =? requestId s)%string then skip s
  else (cleanup ;;
        modify (with_channels rid None None) ;;
        effect) s.

(** ** Events and steps *)

Inductive Event :=
| RequestIdChanged (rid : string)
| IntervalTick
| InsertEvent (payload_new_id : string)
| Resolve (n : nat) (r : Reply)
| Scroll (scrollTop scrollHeight clientHeight : Z)
| ScrollTimeoutFired
| SendScrollFired
| InputChange (value : string)
| Submit.

Definition remove_nth {A} (n : nat) (l : list A) : list A :=
  (firstn n l ++ skipn (S n) l)%list.

(** The component with the store call [n] no longer in flight. *)
Definition settled (n : nat) (s : ChatWindow) : ChatWindow :=
  with_inflight (remove_nth n (inflight s)) s.

Definition answers (p : Pending) (r : Reply) : bool :=
  match p, r with
  | PFetch _, ListReply _ _ => true
  | PPoll _, ListReply _ _ => true
  | PPush _, SingleReply _ _ => true
  | PSend, InsertReply _ => true
  | _, _ => false
  end.

Definition resume (p : Pending) (r : Reply) : Act :=
  match p with
  | PFetch _ => fetchMessages_resume r
  | PPoll c => silentRefreshMessages_resume c r
  | PPush _ => onInsert_resume r
  | PSend => handleSendMessage_resume r
  end.

(** The [n]-th store call in flight resolves with [r]. *)
Definition resolve (n : nat) (r : Reply) : Act := fun s =>
  match nth_error (inflight s) n with
  | Some p =>
      if answers p r
      then (modify (settled n) ;; resume p r) s
      else skip s
  | None => skip s
  end.

Definition step_act (e : Event) : Act :=
  match e with
  | RequestIdChanged rid => setRequestId rid
  | IntervalTick => fun s =>
      match refreshInterval s with
      | Some c => silentRefreshMessages c s
      | None => skip s
      end
  | InsertEvent i => onInsert i
  | Resolve n r => resolve n r
  | Scroll st sh ch => handleScroll st sh ch
  | ScrollTimeoutFired => scrollTimeout_fired
  | SendScrollFired => sendScroll_fired
  | InputChange v => modify (setNewMessage v)
  | Submit => handleSendMessage
  end.

Definition step (s : ChatWindow) (e : Event) : ChatWindow * list Output :=
  step_act e s.

Fixpoint run (s : ChatWindow) (evs : list Event) : ChatWindow :=
  match evs with
  | [] => s
  | e :: evs' => run (fst (step s e)) evs'
  end.

(** The outputs of the last event of a trace. *)
Definition last_outputs (s : ChatWindow) (evs : list Event) : list Output :=
  match rev evs with
  | [] => []
  | e :: before => snd (step (run s (rev before)) e)
  end.

(** ** What is rendered (lines 178-250) *)

Record Bubble := {
  key : string;
  own : bool;
  header : option (string * string);
  text : string;
  time : Z
}.

Inductive View :=
| Spinner
| Chat (bubbles : list Bubble) (input : string) (disabled working : bool).

Definition bubble (u : option User) (m : Message) : Bubble :=
  {| key := id m;
     own := match u with
            | Some u => (sender_id m =? user_id u)%string
            | None => false
            end;
     header := option_map (fun p => (first_name p, last_name p)) (sender m);
     text := content m;
     time := created_at m |}.

Definition render (s : ChatWindow) : View :=
  if loading s then Spinner
  else Chat (map (bubble (user s)) (messages s)) (newMessage s)
            (sending s || falsy (trim (newMessage s))) (sending s).

(** ** Properties of a transcript *)

Definition ids (l : list Message) : list string := map id l.

(** The order the store's [.order('created_at', { ascending: true })]
    gives: ascending instants, equal instants in any order. *)
Definition ascending (l : list Message) : Prop :=
  StronglySorted (fun a b => (created_at a <= created_at b)%Z) l.

(** Strictly ascending by [created_at], ties broken by [id]. *)
Definition precedes (a b : Message) : bool :=
  (created_at a <? created_at b)%Z
  || ((created_at a =? created_at b)%Z && (id a <? id b)%string).

Fixpoint strictly_ordered (l : list Message) : bool :=
  match l with
  | [] => true
  | a :: r =>
      match r with
      | [] => true
      | b :: _ => precedes a b && strictly_ordered r
      end
  end.

(** Same set of ids. *)
Definition same_ids (l1 l2 : list Message) : Prop :=
  forall i, In i (ids l1) <-> In i (ids l2).

(** The store answers a list call with an id-unique list ([id] is the
    primary key of [messages]). *)
Definition unique_reply (e : Event) : Prop :=
  match e with
  | Resolve _ (ListReply (Some d) _) => NoDup (ids d)
  | _ => True
  end.

(** The store answers a list call in ascending order, and a pushed message
    whose id is new is not older than any message of the transcript.
    Nothing is asked of a pushed message whose id is present, nor of a
    reply that carries an error. *)
Definition in_order (s : ChatWindow) (e : Event) : Prop :=
  match e with
  | Resolve _ (ListReply (Some d) None) => ascending d
  | Resolve _ (SingleReply (Some d) None) =>
      exists_ d (messages s) = false ->
      Forall (fun m => (created_at m <= created_at d)%Z) (messages s)
  | _ => True
  end.

(** The transcript after the [n]-th store call in flight resolves with
    [r], read off the continuations. *)
Definition merged (s : ChatWindow) (n : nat) (r : Reply) : list Message :=
  match nth_error (inflight s) n, r with
  | Some (PFetch _), ListReply (Some d) None => d
  | Some (PFetch _), ListReply None None => []
  | Some (PPoll c), ListReply (Some d) None =>
      if (List.length d =? List.length (c_messages c))%nat
      then messages s else d
  | Some (PPush _), SingleReply (Some d) None => updater d (messages s)
  | _, _ => messages s
  end.

(** The events of a trace are in order, each in the state it meets. *)
Fixpoint all_in_order (s : ChatWindow) (evs : list Event) : Prop :=
  match evs with
  | [] => True
  | e :: evs' => in_order s e /\ all_in_order (fst (step s e)) evs'
  end.

(** A continuation of the first render: the [messages] it closed over is
    the initial, empty one. *)
Definition of_first_render (p : Pending) : Prop :=
  match p with PPoll c => c_messages c = [] | _ => True end.

(** The interval and the polls in flight are those of the first render. *)
Definition first_render (s : ChatWindow) : Prop :=
  (forall c, refreshInterval s = Some c -> c_messages c = []) /\
  Forall of_first_render (inflight s).

(** The view stays on the request it was mounted with. *)
Definition same_request (e : Event) : Prop :=
  match e with RequestIdChanged _ => False | _ => True end.

(** ** Sample data *)

Definition sample (i : string) (t : Z) : Message :=
  {| id := i; sender_id := "u2"; request_id := Some "r1";
     content := "hello"; is_read := false; created_at := t;
     sender := Some {| first_name := "Ada"; last_name := "L";
                       avatar_url := None |} |}.

Definition m1 : Message := sample "m1" 10.
Definition m2 : Message := sample "m2" 20.
Definition m3 : Message := sample "m3" 30.
Definition early : Message := sample "m0" 5.

Definition alice : User := {| user_id := "u1" |}.

Definition ok (l : list Message) : Reply := ListReply (Some l) None.
Definition one (m : Message) : Reply := SingleReply (Some m) None.
Definition failed : option string := Some "StoreUnavailable".

(** The view of request [r1], mounted by [alice]. *)
Definition opened : ChatWindow := fst (mount "r1" (Some alice)).

(** The same view once the initial load has delivered [l]. *)
Definition loaded (l : list Message) : ChatWindow :=
  run opened [Resolve 0 (ok l)].

(** ** Whole traces *)

(** All the outputs of a trace, in order. *)
Fixpoint trace (s : ChatWindow) (evs : list Event) : list Output :=
  match evs with
  | [] => []
  | e :: evs' => (snd (step s e) ++ trace (fst (step s e)) evs')%list
  end.

(** The channels left open by a sequence of outputs, the last opened
    first. *)
Fixpoint channels (open : list string) (o : list Output) : list string :=
  match o with
  | [] => open
  | ChannelSubscribe rid :: o' => channels (rid :: open) o'
  | ChannelUnsubscribe rid :: o' =>
      channels (remove string_dec rid open) o'
  | _ :: o' => channels open o'
  end.

Definition is_fetch (p : Pending) : bool :=
  match p with PFetch _ => true | _ => false end.

(** The view listens to and polls the request it shows. *)
Definition attached (s : ChatWindow) : Prop :=
  subscription s = Some (requestId s) /\
  exists c, refreshInterval s = Some c /\ c_requestId c = requestId s.

(** ** Unmounting

    When the view is unmounted the clean-up of the effect runs (lines
    33-41).  The store calls in flight are not cancelled: their
    continuations still run, but React drops the state updates of a
    component that is no longer mounted, so no render and no effect on
    [messages] follows, and [messagesEndRef] is detached, so
    [scrollToBottom] does nothing.  What is left to see of a continuation
    are its console lines. *)

Inductive Life :=
| Mounted (s : ChatWindow)
| Unmounted (s : ChatWindow).

Inductive LifeEvent :=
| Live (e : Event)
| Unmount.

Definition state_of (l : Life) : ChatWindow :=
  match l with Mounted s => s | Unmounted s => s end.

Definition is_console (o : Output) : bool :=
  match o with ConsoleError | ConsoleDebug => true | _ => false end.

(** What a continuation leaves of [after] when the component is no longer
    mounted: the state and the count written by the effect on [messages]
    are those of [before]; the calls in flight and the timers are those of
    [after]. *)
Definition discard (before after : ChatWindow) : ChatWindow :=
  {| requestId := requestId before; user := user before;
     messages := messages before; newMessage := newMessage before;
     loading := loading before; sending := sending before;
     refreshInterval := refreshInterval after;
     lastMessageCount := lastMessageCount before;
     isUserScrolling := isUserScrolling after;
     scrollTimeout := scrollTimeout after;
     subscription := subscription after; sendScroll := sendScroll after;
     inflight := inflight after |}.

(** An event on the unmounted component: a store call in flight resolves
    or the 100 ms timer of a send fires; there is no interval, no channel
    and no element to scroll or type in any more. *)
Definition unmounted_step (s : ChatWindow) (e : Event)
  : ChatWindow * list Output :=
  match e with
  | Resolve n r =>
      (discard s (fst (resolve n r s)),
       filter is_console (snd (resolve n r s)))
  | SendScrollFired => (with_sendScroll (pred (sendScroll s)) s, [])
  | _ => (s, [])
  end.

Definition life_step (l : Life) (e : LifeEvent) : Life * list Output :=
  match l, e with
  | Mounted s, Live e => (Mounted (fst (step s e)), snd (step s e))
  | Mounted s, Unmount => (Unmounted (fst (cleanup s)), snd (cleanup s))
  | Unmounted s, Live e =>
      (Unmounted (fst (unmounted_step s e)), snd (unmounted_step s e))
  | Unmounted s, Unmount => (Unmounted s, [])
  end.

(** ** The provider of [useAuth()]: [AuthProvider] of
    [src/context/AuthContext.tsx]

    [ChatWindow] reads [user] from this provider.  The provider is modelled
    like the component: its state, the calls in flight, and one event per
    callback.  Its effect has an empty dependency list and its callbacks
    read no state, only set it. *)

Module Auth.

Inductive Role := role_admin | role_mentor | role_user.

(** A row of [profiles]. *)
Record Profile := {
  id : string;
  first_name : string;
  last_name : string;
  email : string;
  phone : option string;
  avatar_url : option string;
  role : Role;
  bio : option string;
  created_at : string;
  updated_at : string
}.

(** A supabase session; only [session.user] is read. *)
Record Session := { session_user : User }.

(** The [{ data, error }] of the select on [profiles]. *)
Record ProfileReply := {
  data : option Profile;
  error : option string
}.

Inductive Output :=
| GetSession
| OnAuthStateChange
| SelectProfile (userId : string)
| ConsoleError.

Record AuthProvider := {
  session : option Session;
  user : option User;
  profile : option Profile;
  loading : bool;
  isAdmin : bool;
  isMentor : bool;
  awaitingSession : bool;
  fetching : list string
}.

Definition is_admin (r : Role) : bool :=
  match r with role_admin => true | _ => false end.

Definition is_mentor (r : Role) : bool :=
  match r with role_mentor => true | _ => false end.

(** [setSession(session); setUser(session?.user ?? null)]. *)
Definition setSessionUser (sess : option Session) (s : AuthProvider) :=
  {| session := sess; user := option_map session_user sess;
     profile := profile s; loading := loading s; isAdmin := isAdmin s;
     isMentor := isMentor s; awaitingSession := awaitingSession s;
     fetching := fetching s |}.

Definition setLoading (b : bool) (s : AuthProvider) :=
  {| session := session s; user := user s; profile := profile s;
     loading := b; isAdmin := isAdmin s; isMentor := isMentor s;
     awaitingSession := awaitingSession s; fetching := fetching s |}.

Definition setProfile (p : option Profile) (s : AuthProvider) :=
  {| session := session s; user := user s; profile := p;
     loading := loading s; isAdmin := isAdmin s; isMentor := isMentor s;
     awaitingSession := awaitingSession s; fetching := fetching s |}.

Definition setRoles (admin mentor : bool) (s : AuthProvider) :=
  {| session := session s; user := user s; profile := profile s;
     loading := loading s; isAdmin := admin; isMentor := mentor;
     awaitingSession := awaitingSession s; fetching := fetching s |}.

Definition with_calls (awaiting : bool) (l : list string) (s : AuthProvider) :=
  {| session := session s; user := user s; profile := profile s;
     loading := loading s; isAdmin := isAdmin s; isMentor := isMentor s;
     awaitingSession := awaiting; fetching := l |}.

(** Lines 79-85: [fetchProfile] up to its [await]. *)
Definition fetchProfile (userId : string) (s : AuthProvider)
  : AuthProvider * list Output :=
  (with_calls (awaitingSession s) (fetching s ++ [userId])%list s,
   [SelectProfile userId]).

(** Lines 87-98: [fetchProfile] after its [await].  With neither an error
    nor a row, [setProfile(data)] has run when [data.role] throws. *)
Definition fetchProfile_resume (r : ProfileReply) (s : AuthProvider)
  : AuthProvider * list Output :=
  match error r with
  | Some _ => (setLoading false s, [ConsoleError])
  | None =>
      match data r with
      | Some p =>
          (setLoading false
             (setRoles (is_admin (role p)) (is_mentor (role p))
                (setProfile (Some p) s)), [])
      | None => (setLoading false (setProfile None s), [ConsoleError])
      end
  end.

(** Lines 49-57: the callback of [getSession()]. *)
Definition onSession (sess : option Session) (s : AuthProvider)
  : AuthProvider * list Output :=
  let s1 := setSessionUser sess s in
  match sess with
  | Some x => fetchProfile (user_id (session_user x)) s1
  | None => (setLoading false s1, [])
  end.

(** Lines 60-73: the callback of [onAuthStateChange]. *)
Definition onAuthStateChange (sess : option Session) (s : AuthProvider)
  : AuthProvider * list Output :=
  let s1 := setSessionUser sess s in
  match sess with
  | Some x => fetchProfile (user_id (session_user x)) s1
  | None =>
      (setLoading false (setRoles false false (setProfile None s1)), [])
  end.

(** Lines 40-45 and the effect of lines 47-77. *)
Definition mount : AuthProvider * list Output :=
  ({| session := None; user := None; profile := None; loading := true;
      isAdmin := false; isMentor := false; awaitingSession := true;
      fetching := [] |},
   [GetSession; OnAuthStateChange]).

Inductive Event :=
| SessionResolved (sess : option Session)
| AuthStateChange (sess : option Session)
| ProfileResolved (n : nat) (r : ProfileReply).

Definition step (s : AuthProvider) (e : Event) : AuthProvider * list Output :=
  match e with
  | SessionResolved sess =>
      if awaitingSession s
      then onSession sess (with_calls false (fetching s) s)
      else (s, [])
  | AuthStateChange sess => onAuthStateChange sess s
  | ProfileResolved n r =>
      match nth_error (fetching s) n with
      | Some _ =>
          fetchProfile_resume r
            (with_calls (awaitingSession s) (remove_nth n (fetching s)) s)
      | None => (s, [])
      end
  end.

Fixpoint run (s : AuthProvider) (evs : list Event) : AuthProvider :=
  match evs with
  | [] => s
  | e :: evs' => run (fst (step s e)) evs'
  end.



(** Something is under way that will clear [loading]. *)
Definition in_progress (s : AuthProvider) : Prop :=
  awaitingSession s = true \/ fetching s <> [].

Definition profile_of (uid : string) (r : Role) : Profile :=
  {| id := uid; first_name := "Ada"; last_name := "L";
     email := "ada@example.org"; phone := None; avatar_url := None;
     role := r; bio := None; created_at := "2025-05-21";
     updated_at := "2025-05-21" |}.

Definition signed_in (uid : string) : option Session :=
  Some {| session_user := {| user_id := uid |} |}.

Definition found (p : Profile) : ProfileReply :=
  {| data := Some p; error := None |}.

End Auth.

(** ** General facts about the handlers *)

Lemma setMessages_state (l : list Message) (s : ChatWindow) :
  fst (setMessages l s) = with_messages l (List.length l) s.
Proof.
  unfold setMessages, onMessagesChange, seq, emit, modify. cbn.
  destruct (negb (isUserScrolling s) && _); reflexivity.
Qed.

Lemma setMessages_first_output (l : list Message) (s : ChatWindow) :
  exists rest, snd (setMessages l s) = SetMessages l :: rest.
Proof.
  unfold setMessages, seq, emit. cbn. eexists. reflexivity.
Qed.

Lemma resolve_messages (s : ChatWindow) (n : nat) (r : Reply) :
  messages (fst (step s (Resolve n r))) = merged s n r.
Proof.
  unfold step, step_act, resolve, merged.
  destruct (nth_error (inflight s) n) as [p|]; [|reflexivity].
  destruct p as [rid|c|rid|];
    destruct r as [[d|] [e|]|[d|] [e|]|[e|]];
    cbn -[setMessages updater exists_]; try reflexivity;
    try (rewrite setMessages_state; reflexivity).
  - destruct (List.length d =? List.length (c_messages c))%nat;
      [reflexivity|]. rewrite setMessages_state. reflexivity.
  - unfold updater. destruct (exists_ d (messages s)); [reflexivity|].
    rewrite setMessages_state. reflexivity.
Qed.

Lemma step_messages (s : ChatWindow) (e : Event) :
  messages (fst (step s e)) =
  match e with Resolve n r => merged s n r | _ => messages s end.
Proof.
  destruct e; try apply resolve_messages; unfold step, step_act.
  - unfold setRequestId.
    destruct (rid =? requestId s)%string; [reflexivity|].
    unfold cleanup, seq. cbn. destruct (subscription s); reflexivity.
  - destruct (refreshInterval s); reflexivity.
  - unfold onInsert. destruct (subscription s); reflexivity.
  - reflexivity.
  - unfold scrollTimeout_fired. destruct (scrollTimeout s); reflexivity.
  - unfold sendScroll_fired. destruct (sendScroll s); reflexivity.
  - reflexivity.
  - unfold handleSendMessage.
    destruct (falsy (trim (newMessage s))); [reflexivity|].
    destruct (user s); reflexivity.
Qed.

Lemma exists_In (d : Message) (prev : list Message) :
  exists_ d prev = true <-> In (id d) (ids prev).
Proof.
  unfold exists_, ids. rewrite existsb_exists, in_map_iff. split.
  - intros [m [Hin Heq]]. apply String.eqb_eq in Heq. eauto.
  - intros [m [Heq Hin]]. exists m. split; [assumption|].
    apply String.eqb_eq. assumption.
Qed.

Lemma updater_NoDup (d : Message) (prev : list Message) :
  NoDup (ids prev) -> NoDup (ids (updater d prev)).
Proof.
  intros H. unfold updater. destruct (exists_ d prev) eqn:E; [assumption|].
  unfold ids. rewrite map_app. cbn.
  apply (NoDup_Add (Add_app (id d) (map id prev) [])).
  rewrite app_nil_r. split; [assumption|].
  intros Hin. apply exists_In in Hin. congruence.
Qed.

Lemma ascending_snoc (prev : list Message) (d : Message) :
  ascending prev ->
  Forall (fun m => (created_at m <= created_at d)%Z) prev ->
  ascending (prev ++ [d]).
Proof.
  unfold ascending. induction prev as [|a prev IH]; intros Hs Hall; cbn.
  - constructor; constructor.
  - apply StronglySorted_inv in Hs as [Hs Ha].
    inversion Hall as [|? ? Had Hall']; subst.
    constructor.
    + apply IH; assumption.
    + apply Forall_app. split; [assumption|].
      constructor; [assumption|constructor].
Qed.

Lemma step_NoDup (s : ChatWindow) (e : Event) :
  NoDup (ids (messages s)) -> unique_reply e ->
  NoDup (ids (messages (fst (step s e)))).
Proof.
  intros Hs He. rewrite step_messages.
  destruct e as [rid| |i|n r|st sh ch| | |v|]; try assumption.
  unfold merged.
  destruct (nth_error (inflight s) n) as [[rid|c|rid|]|]; try assumption;
    destruct r as [[d|] [e|]|[d|] [e|]|[e|]]; cbn in He; try assumption.
  - constructor.
  - destruct (List.length d =? List.length (c_messages c))%nat; assumption.
  - apply updater_NoDup. assumption.
Qed.

Lemma run_NoDup (evs : list Event) :
  forall s, NoDup (ids (messages s)) -> Forall unique_reply evs ->
  NoDup (ids (messages (run s evs))).
Proof.
  induction evs as [|e evs IH]; intros s Hs Hall; cbn.
  - assumption.
  - inversion Hall as [|? ? He Hrest]; subst.
    apply IH; [apply step_NoDup|]; assumption.
Qed.

Lemma same_ids_length (l1 l2 : list Message) :
  NoDup (ids l1) -> NoDup (ids l2) -> same_ids l1 l2 ->
  List.length l1 = List.length l2.
Proof.
  intros H1 H2 H.
  assert (List.length (ids l1) = List.length (ids l2)) as E.
  { apply Nat.le_antisymm; apply NoDup_incl_length; try assumption;
      intros i Hi; apply H; assumption. }
  unfold ids in E. rewrite !length_map in E. assumption.
Qed.

(** The guard of line 86 does what its comment says when the closure is
    the current one: a candidate with the ids of the transcript is not
    applied. *)
Lemma poll_with_current_closure_is_noop
    (s : ChatWindow) (n : nat) (c : Closure) (d : list Message) :
  nth_error (inflight s) n = Some (PPoll c) ->
  c_messages c = messages s ->
  NoDup (ids d) -> NoDup (ids (messages s)) -> same_ids d (messages s) ->
  step s (Resolve n (ok d)) = (settled n s, []).
Proof.
  intros Hn Hc Hd Hs Hsame. unfold step, step_act, resolve. rewrite Hn.
  cbn -[setMessages]. rewrite Hc, (same_ids_length _ _ Hd Hs Hsame).
  rewrite Nat.eqb_refl. reflexivity.
Qed.

Lemma step_ascending (s : ChatWindow) (e : Event) :
  ascending (messages s) -> in_order s e ->
  ascending (messages (fst (step s e))).
Proof.
  intros Hs He. rewrite step_messages.
  destruct e as [rid| |i|n r|st sh ch| | |v|]; try assumption.
  unfold merged.
  destruct (nth_error (inflight s) n) as [[rid|c|rid|]|]; try assumption;
    destruct r as [[d|] [e|]|[d|] [e|]|[e|]]; cbn in He; try assumption.
  - constructor.
  - destruct (List.length d =? List.length (c_messages c))%nat; assumption.
  - unfold updater. destruct (exists_ d (messages s)); [assumption|].
    apply ascending_snoc; [assumption|]. apply He. reflexivity.
Qed.

Lemma run_ascending (evs : list Event) :
  forall s, ascending (messages s) -> all_in_order s evs ->
  ascending (messages (run s evs)).
Proof.
  induction evs as [|e evs IH]; intros s Hs Hall; cbn.
  - assumption.
  - destruct Hall as [He Hrest].
    apply IH; [apply step_ascending|]; assumption.
Qed.

Lemma Forall_remove_nth {A} (P : A -> Prop) (n : nat) (l : list A) :
  Forall P l -> Forall P (remove_nth n l).
Proof.
  intros H. revert n. induction H as [|a l Ha Hl IH]; intros [|n].
  - constructor.
  - constructor.
  - exact Hl.
  - constructor; [exact Ha|apply IH].
Qed.

Lemma resume_channels (p : Pending) (r : Reply) (s : ChatWindow) :
  refreshInterval (fst (resume p r s)) = refreshInterval s /\
  inflight (fst (resume p r s)) = inflight s.
Proof.
  destruct p as [rid|c|rid|];
    destruct r as [[d|] [e|]|[d|] [e|]|[e|]];
    cbn -[setMessages updater exists_]; try (split; reflexivity);
    try (rewrite setMessages_state; split; reflexivity).
  - destruct (List.length d =? List.length (c_messages c))%nat;
      [split; reflexivity|]. rewrite setMessages_state. split; reflexivity.
  - destruct (exists_ d (messages s)); [split; reflexivity|].
    rewrite setMessages_state. split; reflexivity.
Qed.

Lemma step_first_render (s : ChatWindow) (e : Event) :
  first_render s -> same_request e -> first_render (fst (step s e)).
Proof.
  intros [Hi Hp] He. unfold step.
  destruct e as [rid| |i|n r|st sh ch| | |v|]; cbn [step_act].
  - contradiction.
  - destruct (refreshInterval s) as [c|] eqn:E;
      [|split; [intros c Hc; cbn in Hc; congruence|assumption]].
    split; cbn.
    + rewrite E. assumption.
    + apply Forall_app. split; [assumption|]. constructor; [|constructor].
      cbn. apply Hi. reflexivity.
  - unfold onInsert. destruct (subscription s); [|split; assumption].
    split; cbn; [assumption|]. apply Forall_app. split; [assumption|].
    repeat constructor.
  - unfold resolve. destruct (nth_error (inflight s) n) as [p|];
      [|split; assumption].
    destruct (answers p r); [|split; assumption].
    unfold seq, modify. cbn [fst snd].
    destruct (resume_channels p r (settled n s)) as [E1 E2].
    split; [rewrite E1|rewrite E2]; cbn.
    + assumption.
    + apply Forall_remove_nth. assumption.
  - split; assumption.
  - unfold scrollTimeout_fired. destruct (scrollTimeout s); split; assumption.
  - unfold sendScroll_fired. destruct (sendScroll s); split; assumption.
  - split; assumption.
  - unfold handleSendMessage.
    destruct (falsy (trim (newMessage s))); [split; assumption|].
    destruct (user s); [|split; assumption].
    split; cbn; [assumption|]. apply Forall_app. split; [assumption|].
    repeat constructor.
Qed.

Lemma run_first_render (evs : list Event) :
  forall s, first_render s -> Forall same_request evs ->
  first_render (run s evs).
Proof.
  induction evs as [|e evs IH]; intros s Hs Hall; cbn.
  - assumption.
  - inversion Hall as [|? ? He Hrest]; subst.
    apply IH; [apply step_first_render|]; assumption.
Qed.

Lemma mount_first_render (rid : string) (u : option User) :
  first_render (fst (mount rid u)).
Proof.
  split; cbn.
  - intros c H. injection H as <-. reflexivity.
  - repeat constructor.
Qed.

(** As long as the view stays on the request it was mounted with, every
    poll that returns a non-empty list calls [setMessages], whatever the
    transcript is at that time. *)
Lemma poll_after_mount_always_updates
    (rid : string) (u : option User) (evs : list Event)
    (n : nat) (c : Closure) (d : list Message) :
  Forall same_request evs ->
  let s := run (fst (mount rid u)) evs in
  nth_error (inflight s) n = Some (PPoll c) ->
  d <> [] ->
  exists rest, snd (step s (Resolve n (ok d))) = SetMessages d :: rest.
Proof.
  intros Hall s Hn Hd.
  assert (first_render s) as [_ Hp].
  { apply run_first_render; [apply mount_first_render|assumption]. }
  assert (c_messages c = []) as Hc.
  { rewrite Forall_forall in Hp. apply (Hp (PPoll c)).
    apply nth_error_In with n. assumption. }
  unfold step, step_act, resolve. rewrite Hn.
  cbn -[setMessages]. rewrite Hc.
  destruct d as [|m d]; [contradiction|]. cbn -[setMessages].
  apply setMessages_first_output.
Qed.

(** ** C1: order of the transcript *)

(** C1, as stated, fails: a pushed message older than the transcript is
    appended after it, and the transcript is then not in order. *)
Lemma older_push_is_placed_last :
  let s := run (loaded [m1]) [InsertEvent "m0"; Resolve 0 (one early)] in
  (created_at early < created_at m1)%Z /\
  messages s = [m1; early] /\
  strictly_ordered (messages s) = false.
Proof. cbv. repeat split. Qed.

(** C1 (amended): from the mount on, the merges keep the transcript in
    ascending [created_at] order as long as the store returns its lists in
    that order and no pushed message with a new id is older than the
    messages present at its merge (a pushed message whose id is present is
    dropped, whatever its age); a pushed message whose id is new is always
    placed last. *)
Theorem merge_keeps_store_order
    (rid : string) (u : option User) (evs : list Event) :
  all_in_order (fst (mount rid u)) evs ->
  let s := run (fst (mount rid u)) evs in
  ascending (messages s) /\
  (forall n d rid',
      nth_error (inflight s) n = Some (PPush rid') ->
      exists_ d (messages s) = false ->
      messages (fst (step s (Resolve n (one d)))) = (messages s ++ [d])%list).
Proof.
  intros Hall s. split.
  - apply run_ascending; [constructor|assumption].
  - intros n d rid' Hn Hnew. rewrite resolve_messages. unfold merged, one.
    rewrite Hn. unfold updater. rewrite Hnew. reflexivity.
Qed.

Lemma merge_keeps_store_order_witness :
  let evs := [Resolve 0 (ok [m1; m2; m3]); InsertEvent "m2";
              Resolve 0 (one m2); InsertEvent "m0"] in
  let s := run (fst (mount "r1" (Some alice))) evs in
  ascending (messages s) /\
  messages s = [m1; m2; m3] /\
  messages (fst (step s (Resolve 0 (one early)))) = [m1; m2; m3; early].
Proof.
  intros evs s.
  assert (all_in_order (fst (mount "r1" (Some alice))) evs) as Hall.
  { cbn. repeat split; try (repeat constructor; cbn; lia). }
  destruct (merge_keeps_store_order "r1" (Some alice) evs Hall) as [Ha Hl].
  split; [exact Ha|]. split; [reflexivity|].
  exact (Hl 0%nat early "r1" eq_refl eq_refl).
Defined.

(** ** C3: what a poll removes *)

(** C3, as stated, fails: a poll whose list has the length the poll
    compares with leaves the transcript as it is.  Here the view moves from
    request [r1] with two messages to request [r2], whose initial load
    fails; the poll of [r2] returns its two messages and none of the two
    old ones is removed. *)
Lemma poll_of_equal_length_removes_nothing :
  let n1 := sample "n1" 1 in
  let n2 := sample "n2" 2 in
  let s := run (loaded [m1; m2])
               [RequestIdChanged "r2"; Resolve 0 (ListReply None failed);
                IntervalTick] in
  messages s = [m1; m2] /\
  messages (fst (step s (Resolve 0 (ok [n1; n2])))) = [m1; m2] /\
  ~ In m1 [n1; n2] /\ ~ In m2 [n1; n2].
Proof.
  cbv zeta. repeat split; try reflexivity;
    intros [H|[H|[]]]; discriminate H.
Qed.

(** C3 (amended): a poll replaces the transcript by its list when the
    length of the list differs from the length the poll compares with, and
    then every message absent from the list is gone; when the two lengths
    are equal the transcript is kept. *)
Theorem poll_replaces_when_lengths_differ
    (s : ChatWindow) (n : nat) (c : Closure) (d : list Message) :
  nth_error (inflight s) n = Some (PPoll c) ->
  let s' := fst (step s (Resolve n (ok d))) in
  (List.length d <> List.length (c_messages c) ->
   messages s' = d /\
   forall m, In m (messages s) -> ~ In m d -> ~ In m (messages s')) /\
  (List.length d = List.length (c_messages c) -> messages s' = messages s).
Proof.
  intros Hn s'. subst s'. rewrite resolve_messages. unfold merged, ok.
  rewrite Hn. split; intros Hlen.
  - apply Nat.eqb_neq in Hlen. rewrite Hlen. split; [reflexivity|].
    intros m _ Hm. exact Hm.
  - apply Nat.eqb_eq in Hlen. rewrite Hlen. reflexivity.
Qed.

Lemma poll_replaces_when_lengths_differ_witness :
  let s := run (loaded [m1; m2; m3]) [IntervalTick] in
  messages s = [m1; m2; m3] /\
  messages (fst (step s (Resolve 0 (ok [m1; m3])))) = [m1; m3].
Proof.
  intro s. split; [reflexivity|].
  refine (proj1 (proj1 (poll_replaces_when_lengths_differ s 0
            {| c_requestId := "r1"; c_messages := [] |} [m1; m3] eq_refl) _)).
  cbn. lia.
Defined.

(** ** C4: a push only adds *)

(** C4, as stated, fails: the older message is put after [m2], not before
    it. *)
Lemma older_push_goes_after :
  let s := run (loaded [m2]) [InsertEvent "m1"; Resolve 0 (one m1)] in
  (created_at m1 < created_at m2)%Z /\
  messages s = [m2; m1] /\ messages s <> [m1; m2].
Proof.
  cbv zeta. repeat split; try reflexivity. intros H. discriminate H.
Qed.

(** C4 (amended): a push keeps every message of the transcript, in place,
    and appends the fetched message at the end when its id is new: the
    transcript [m1] and a push of [m2] give [m1, m2]. *)
Theorem push_only_appends
    (s : ChatWindow) (n : nat) (rid : string) (d : Message) :
  nth_error (inflight s) n = Some (PPush rid) ->
  let s' := fst (step s (Resolve n (one d))) in
  (exists tail, messages s' = (messages s ++ tail)%list) /\
  (forall m, In m (messages s) -> In m (messages s')) /\
  (exists_ d (messages s) = false -> messages s' = (messages s ++ [d])%list).
Proof.
  intros Hn s'. subst s'. rewrite resolve_messages. unfold merged, one.
  rewrite Hn. unfold updater.
  destruct (exists_ d (messages s)); repeat split.
  - exists []. rewrite app_nil_r. reflexivity.
  - intros m Hm. exact Hm.
  - intros H. discriminate H.
  - exists [d]. reflexivity.
  - intros m Hm. apply in_or_app. left. exact Hm.
Qed.

Lemma push_only_appends_witness :
  let s := run (loaded [m2]) [InsertEvent "m1"] in
  messages s = [m2] /\
  messages (fst (step s (Resolve 0 (one m1)))) = [m2; m1].
Proof.
  intro s. split; [reflexivity|].
  exact (proj2 (proj2 (push_only_appends s 0 "r1" m1 eq_refl)) eq_refl).
Defined.

(** ** C8: ids are unique *)

(** C8: whatever the events, if the store answers with id-unique lists the
    transcript holds no id twice; and a push whose id is present leaves the
    transcript as it is. *)
Theorem transcript_ids_unique
    (rid : string) (u : option User) (evs : list Event) :
  Forall unique_reply evs ->
  let s := run (fst (mount rid u)) evs in
  NoDup (ids (messages s)) /\
  (forall n d, In (id d) (ids (messages s)) ->
               messages (fst (step s (Resolve n (one d)))) = messages s).
Proof.
  intros Hall s. split.
  - apply run_NoDup; [constructor|assumption].
  - intros n d Hin. rewrite resolve_messages. unfold merged, one.
    destruct (nth_error (inflight s) n) as [[r|c|r|]|]; try reflexivity.
    unfold updater. apply exists_In in Hin. rewrite Hin. reflexivity.
Qed.

Lemma transcript_ids_unique_witness :
  let evs := [Resolve 0 (ok [m1; m2]); InsertEvent "m2"] in
  let s := run (fst (mount "r1" (Some alice))) evs in
  NoDup (ids (messages s)) /\
  messages (fst (step s (Resolve 0 (one m2)))) = [m1; m2].
Proof.
  intros evs s.
  assert (Forall unique_reply evs) as Hall.
  { repeat constructor; cbn; intuition discriminate. }
  destruct (transcript_ids_unique "r1" (Some alice) evs Hall) as [Hu Hp].
  split; [exact Hu|].
  apply (Hp 0%nat m2). cbn. right. left. reflexivity.
Defined.

(** ** C2: a poll that brings nothing new *)

(** C2: the code at the failing input.  The transcript is [m1] and the
    store keeps returning [m1]; the interval calls the
    [silentRefreshMessages] of the first render, whose [messages] is the
    empty list, so every poll calls [setMessages]. *)
Theorem every_poll_sets_the_transcript :
  let s := loaded [m1] in
  let poll := [IntervalTick; Resolve 0 (ok [m1])] in
  messages s = [m1] /\
  refreshInterval s = Some {| c_requestId := "r1"; c_messages := [] |} /\
  last_outputs s poll = [SetMessages [m1]] /\
  last_outputs s (poll ++ poll) = [SetMessages [m1]] /\
  last_outputs s (poll ++ poll ++ poll) = [SetMessages [m1]].
Proof. cbv zeta. repeat split. Qed.

(** ** C6: continuations that resolve late *)

(** C6, as stated, fails: a poll of request [r1] that resolves after the
    view has moved to request [r2] is applied, and the transcript of [r2]
    shows a message of [r1]. *)
Lemma late_poll_is_merged :
  let s := run (loaded [m1])
               [IntervalTick; RequestIdChanged "r2"; Resolve 1 (ok [])] in
  requestId s = "r2" /\
  messages s = [] /\
  inflight s = [PPoll {| c_requestId := "r1"; c_messages := [] |}] /\
  messages (fst (step s (Resolve 0 (ok [m1])))) = [m1] /\
  request_id m1 = Some "r1".
Proof. cbv zeta. repeat split. Qed.

Lemma request_change_keeps_calls
    (s : ChatWindow) (n : nat) (p : Pending) (rid' : string) :
  nth_error (inflight s) n = Some p ->
  nth_error (inflight (fst (step s (RequestIdChanged rid')))) n = Some p.
Proof.
  intros Hn. unfold step, step_act, setRequestId.
  destruct (rid' =? requestId s)%string; [exact Hn|].
  unfold cleanup, seq. cbn.
  assert (n < List.length (inflight s))%nat as Hlt.
  { apply nth_error_Some. rewrite Hn. discriminate. }
  destruct (subscription s); cbn; rewrite nth_error_app1; assumption.
Qed.

(** C6 (amended): a fetch that resolves after the view is unmounted
    applies no merge and lets no error out: the transcript and the view
    are what they were, and only console lines are written.  A fetch that
    resolves after the request has changed is merged as it would have been
    before the change, for the continuations do not look at the request
    the view is on: a poll sets its list when the lengths differ, a push
    applies its updater; a failed poll writes a debug line and a failed
    point fetch does nothing. *)
Theorem late_continuation_outcomes
    (s : ChatWindow) (n : nat) (p : Pending) (rid' : string) :
  nth_error (inflight s) n = Some p ->
  let gone := fst (life_step (Mounted s) Unmount) in
  let moved := fst (step s (RequestIdChanged rid')) in
  (forall r,
     let late := life_step gone (Live (Resolve n r)) in
     messages (state_of (fst late)) = messages s /\
     render (state_of (fst late)) = render s /\
     forall o, In o (snd late) -> o = ConsoleError \/ o = ConsoleDebug) /\
  (forall r, messages (fst (step moved (Resolve n r))) =
             messages (fst (step s (Resolve n r)))) /\
  (forall c d, p = PPoll c ->
     List.length d <> List.length (c_messages c) ->
     messages (fst (step moved (Resolve n (ok d)))) = d) /\
  (forall rid d, p = PPush rid ->
     messages (fst (step moved (Resolve n (one d)))) =
     updater d (messages s)) /\
  (forall c data e, p = PPoll c ->
     step s (Resolve n (ListReply data (Some e))) =
       (settled n s, [ConsoleDebug])) /\
  (forall rid data e, p = PPush rid ->
     step s (Resolve n (SingleReply data (Some e))) = (settled n s, [])).
Proof.
  intros Hn gone moved.
  assert (forall r, messages (fst (step moved (Resolve n r))) =
                    messages (fst (step s (Resolve n r)))) as Hmoved.
  { intros r. rewrite !resolve_messages. unfold merged. subst moved.
    rewrite (request_change_keeps_calls s n p rid' Hn), Hn.
    rewrite (step_messages s (RequestIdChanged rid')). reflexivity. }
  repeat split.
  - subst gone. unfold life_step, cleanup, seq. cbn.
    destruct (subscription s); reflexivity.
  - subst gone. unfold life_step, cleanup, seq. cbn.
    destruct (subscription s); reflexivity.
  - intros o Ho. cbn in Ho. apply filter_In in Ho. destruct Ho as [_ Ho].
    destruct o; try discriminate Ho; auto.
  - exact Hmoved.
  - intros c d -> Hlen. rewrite Hmoved, resolve_messages. unfold merged, ok.
    rewrite Hn. apply Nat.eqb_neq in Hlen. rewrite Hlen. reflexivity.
  - intros rid d ->. rewrite Hmoved, resolve_messages. unfold merged, one.
    rewrite Hn. reflexivity.
  - intros c data e ->. unfold step, step_act, resolve. rewrite Hn.
    destruct data; reflexivity.
  - intros rid data e ->. unfold step, step_act, resolve. rewrite Hn.
    destruct data; reflexivity.
Qed.

Lemma late_continuation_outcomes_witness :
  let s := run (loaded [m1]) [IntervalTick] in
  let gone := fst (life_step (Mounted s) Unmount) in
  let moved := fst (step s (RequestIdChanged "r2")) in
  snd (life_step (Mounted s) Unmount) = [ChannelUnsubscribe "r1"] /\
  messages (state_of (fst (life_step gone (Live (Resolve 0 (ok [m1; m2]))))))
  = [m1] /\
  snd (life_step gone (Live (Resolve 0 (ok [m1; m2])))) = [] /\
  requestId moved = "r2" /\
  messages (fst (step moved (Resolve 0 (ok [m1; m2])))) = [m1; m2].
Proof.
  intros s gone moved.
  destruct (late_continuation_outcomes s 0
              (PPoll {| c_requestId := "r1"; c_messages := [] |}) "r2"
              eq_refl) as [Hgone [_ [Hpoll _]]].
  split; [reflexivity|]. split; [exact (proj1 (Hgone (ok [m1; m2])))|].
  split; [reflexivity|]. split; [reflexivity|].
  apply (Hpoll _ [m1; m2] eq_refl). cbn. lia.
Defined.

(** ** C7: the scroll policy *)

(** C7, as stated, fails: the view is scrolled away from the bottom and
    stays there; when the quiet-timer fires the flag is cleared although the
    position is still outside the tolerance. *)
Lemma quiet_timer_resets_the_flag :
  let s := run (loaded [m1]) [Scroll 0 1000 100] in
  (0 + 100 >=? 1000 - 10)%Z = false /\
  isUserScrolling s = true /\
  scrollTimeout s = Some 3000%Z /\
  isUserScrolling (run s [ScrollTimeoutFired]) = false.
Proof. cbv zeta. repeat split. Qed.

(** C7 (amended): a scroll event sets the flag to "not within 10 px of the
    bottom" and arms the quiet-timer of 3000 ms (in both cases); when the
    timer fires the flag is cleared, whatever the position. *)
Theorem scroll_policy
    (s : ChatWindow) (scrollTop scrollHeight clientHeight : Z) :
  let s1 := fst (step s (Scroll scrollTop scrollHeight clientHeight)) in
  let s2 := fst (step s1 ScrollTimeoutFired) in
  isUserScrolling s1 =
    negb (scrollTop + clientHeight >=? scrollHeight - 10)%Z /\
  scrollTimeout s1 = Some 3000%Z /\
  isUserScrolling s2 = false /\
  scrollTimeout s2 = None.
Proof. cbv zeta. repeat split. Qed.

(** ** C9 and C10: sending *)

(** C9, as stated, fails: after a failed send the component is in the state
    it had before the send, so the view shows no error; the failure is
    written to the console. *)
Lemma failed_send_shows_nothing :
  let s := run (loaded [m1]) [InputChange " hi "] in
  let send := [Submit; Resolve 0 (InsertReply failed)] in
  snd (step s Submit) = [Insert "u1" "r1" "hi"] /\
  last_outputs s send = [ConsoleError] /\
  run s send = s /\
  render (run s send) = render s.
Proof. cbv zeta. repeat split. Qed.

(** C9 (amended): with a non-empty trimmed body and a user, the send
    inserts the request id, the user's id and the trimmed body and marks the
    component as sending; on success the input is cleared and a timer is
    armed that scrolls to the bottom; on failure the input is left as it is
    and the error is written to the console, and nothing is sent again.  In
    both cases the transcript is left to the push and the poll. *)
Theorem send_contract (s t : ChatWindow) (u : User) (n : nat) :
  falsy (trim (newMessage s)) = false ->
  user s = Some u ->
  nth_error (inflight t) n = Some PSend ->
  step s Submit =
    (await PSend (setSending true s),
     [Insert (user_id u) (requestId s) (trim (newMessage s))]) /\
  step t (Resolve n (InsertReply None)) =
    (setSending false
       (with_sendScroll (S (sendScroll t)) (setNewMessage "" (settled n t))),
     []) /\
  step (with_sendScroll (S (sendScroll t)) t) SendScrollFired =
    (with_sendScroll (sendScroll t) (with_sendScroll (S (sendScroll t)) t),
     [ScrollToBottom]) /\
  (forall e, step t (Resolve n (InsertReply (Some e))) =
             (setSending false (settled n t), [ConsoleError])) /\
  (forall r, messages (fst (step t (Resolve n r))) = messages t).
Proof.
  intros Hbody Huser Hn. repeat split.
  - unfold step, step_act, handleSendMessage. rewrite Hbody, Huser.
    reflexivity.
  - unfold step, step_act, resolve. rewrite Hn. reflexivity.
  - intros e. unfold step, step_act, resolve. rewrite Hn. reflexivity.
  - intros r. rewrite resolve_messages. unfold merged. rewrite Hn.
    reflexivity.
Qed.

Lemma send_contract_witness :
  let s := run (loaded [m1]) [InputChange " hi "] in
  let t := fst (step s Submit) in
  snd (step s Submit) = [Insert "u1" "r1" "hi"] /\
  newMessage (fst (step t (Resolve 0 (InsertReply None)))) = "" /\
  newMessage (fst (step t (Resolve 0 (InsertReply failed)))) = " hi ".
Proof.
  intros s t.
  destruct (send_contract s t alice 0 eq_refl eq_refl eq_refl)
    as [Hsubmit [Hok [_ [Hfail _]]]].
  unfold failed. rewrite Hsubmit, Hok, (Hfail "StoreUnavailable").
  repeat split.
Defined.

(** C10: with an empty or blank input, or without a user, the send writes
    nothing to the store and leaves the whole component as it is. *)
Theorem blank_send_does_nothing (s : ChatWindow) :
  falsy (trim (newMessage s)) = true \/ user s = None ->
  step s Submit = (s, []).
Proof.
  intros [H|H]; unfold step, step_act, handleSendMessage; rewrite H.
  - reflexivity.
  - destruct (falsy (trim (newMessage s))); reflexivity.
Qed.

Lemma blank_send_does_nothing_witness :
  let s := run (loaded [m1]) [InputChange "   "] in
  trim (newMessage s) = "" /\ step s Submit = (s, []).
Proof.
  intro s. split; [reflexivity|].
  apply (blank_send_does_nothing s). left. reflexivity.
Defined.

(** ** Further facts: the auto-scroll policy (lines 44-50) *)

Lemma setMessages_outputs (l : list Message) (s : ChatWindow) :
  snd (setMessages l s) =
  SetMessages l ::
    (if negb (isUserScrolling s) && (lastMessageCount s <? List.length l)%nat
     then [ScrollToBottom] else []).
Proof.
  unfold setMessages, onMessagesChange, seq, emit, modify. cbn.
  destruct (negb (isUserScrolling s) && _); reflexivity.
Qed.

Lemma step_lastMessageCount (s : ChatWindow) (e : Event) :
  lastMessageCount s = List.length (messages s) ->
  lastMessageCount (fst (step s e)) = List.length (messages (fst (step s e))).
Proof.
  intros H. unfold step.
  destruct e as [rid| |i|n r|st sh ch| | |v|]; cbn [step_act].
  - unfold setRequestId. destruct (rid =? requestId s)%string; [exact H|].
    unfold cleanup, seq. cbn. destruct (subscription s); exact H.
  - destruct (refreshInterval s); exact H.
  - unfold onInsert. destruct (subscription s); exact H.
  - unfold resolve. destruct (nth_error (inflight s) n) as [p|]; [|exact H].
    destruct (answers p r); [|exact H].
    unfold seq, modify. cbn [fst snd].
    destruct p as [rid|c|rid|];
      destruct r as [[d|] [e|]|[d|] [e|]|[e|]];
      cbn -[setMessages updater exists_]; try exact H;
      try (rewrite setMessages_state; reflexivity).
    + destruct (List.length d =? List.length (c_messages c))%nat;
        [exact H|]. rewrite setMessages_state. reflexivity.
    + destruct (exists_ d (messages s)); [exact H|].
      rewrite setMessages_state. reflexivity.
  - exact H.
  - unfold scrollTimeout_fired. destruct (scrollTimeout s); exact H.
  - unfold sendScroll_fired. destruct (sendScroll s); exact H.
  - exact H.
  - unfold handleSendMessage.
    destruct (falsy (trim (newMessage s))); [exact H|].
    destruct (user s); exact H.
Qed.

Lemma run_lastMessageCount (evs : list Event) :
  forall s, lastMessageCount s = List.length (messages s) ->
  lastMessageCount (run s evs) = List.length (messages (run s evs)).
Proof.
  induction evs as [|e evs IH]; intros s H; cbn.
  - exact H.
  - apply IH. apply step_lastMessageCount. exact H.
Qed.

(** X1: at every moment of the life of the view, the count kept in
    [lastMessageCountRef] is the length of the transcript. *)
Theorem count_follows_transcript
    (rid : string) (u : option User) (evs : list Event) :
  let s := run (fst (mount rid u)) evs in
  lastMessageCount s = List.length (messages s).
Proof.
  cbv zeta. apply run_lastMessageCount. reflexivity.
Qed.

Lemma scroll_condition (scrolling : bool) (k len : nat) (l : list Output) :
  ~ In ScrollToBottom l ->
  In ScrollToBottom
    (l ++ if negb scrolling && (k <? len)%nat then [ScrollToBottom] else [])
  <-> scrolling = false /\ (k < len)%nat.
Proof.
  intros Hl. rewrite in_app_iff.
  destruct (k <? len)%nat eqn:E;
    [apply Nat.ltb_lt in E|apply Nat.ltb_ge in E];
    destruct scrolling; cbn;
    intuition (try discriminate; try lia).
Qed.

Lemma resolve_scrolls (s : ChatWindow) (n : nat) (r : Reply) :
  lastMessageCount s = List.length (messages s) ->
  In ScrollToBottom (snd (step s (Resolve n r))) <->
  isUserScrolling s = false /\
  (List.length (messages s)
   < List.length (messages (fst (step s (Resolve n r)))))%nat.
Proof.
  intros H.
  assert (forall o : list Output,
            (forall x, In x o -> x = ConsoleError \/ x = ConsoleDebug) ->
            In ScrollToBottom o <->
            isUserScrolling s = false /\
            (List.length (messages s) < List.length (messages s))%nat)
    as Hquiet.
  { intros o Ho. split.
    - intros Hin. destruct (Ho _ Hin); discriminate.
    - intros [_ Hlt]. lia. }
  assert (forall l : list Message,
            In ScrollToBottom (snd (setMessages l (settled n s))) <->
            isUserScrolling s = false /\
            (List.length (messages s) < List.length l)%nat) as Hset.
  { intros l. rewrite setMessages_outputs. cbn [settled with_inflight
      isUserScrolling lastMessageCount]. rewrite <- H.
    apply (scroll_condition _ _ _ [SetMessages l]).
    intros [Hx|[]]. discriminate Hx. }
  rewrite resolve_messages. unfold step, step_act, resolve, merged.
  destruct (nth_error (inflight s) n) as [p|];
    [|apply Hquiet; intros x []].
  destruct p as [rid|c|rid|];
    destruct r as [[d|] [e|]|[d|] [e|]|[e|]];
    cbn -[setMessages updater exists_ settled In];
    try (apply Hquiet; intros x Hx; cbn in Hx; intuition (subst; auto));
    try (rewrite app_nil_r; apply Hset).
  - destruct (List.length d =? List.length (c_messages c))%nat;
      [apply Hquiet; intros x []|apply Hset].
  - change (messages (settled n s)) with (messages s). unfold updater.
    destruct (exists_ d (messages s));
      [apply Hquiet; intros x []|apply Hset].
Qed.

(** X2: a merge makes the view scroll to the bottom exactly when the user
    is not reading earlier messages and the transcript gets longer. *)
Theorem merge_scrolls_iff_transcript_grows
    (rid : string) (u : option User) (evs : list Event)
    (n : nat) (r : Reply) :
  let s := run (fst (mount rid u)) evs in
  In ScrollToBottom (snd (step s (Resolve n r))) <->
  isUserScrolling s = false /\
  (List.length (messages s)
   < List.length (messages (fst (step s (Resolve n r)))))%nat.
Proof.
  cbv zeta. apply resolve_scrolls. apply run_lastMessageCount. reflexivity.
Qed.

(** What a continuation leaves alone: the request, the user, the channels,
    the scroll flag and its timer, and the calls in flight. *)
Lemma resume_frame (p : Pending) (r : Reply) (t : ChatWindow) :
  let t' := fst (resume p r t) in
  requestId t' = requestId t /\ user t' = user t /\
  refreshInterval t' = refreshInterval t /\
  subscription t' = subscription t /\
  isUserScrolling t' = isUserScrolling t /\
  scrollTimeout t' = scrollTimeout t /\
  inflight t' = inflight t.
Proof.
  cbv zeta.
  destruct p as [rid|c|rid|];
    destruct r as [[d|] [e|]|[d|] [e|]|[e|]];
    cbn -[setMessages updater exists_];
    rewrite ?setMessages_state; try (repeat split; reflexivity).
  - destruct (List.length d =? List.length (c_messages c))%nat;
      rewrite ?setMessages_state; repeat split; reflexivity.
  - destruct (exists_ d (messages t));
      rewrite ?setMessages_state; repeat split; reflexivity.
Qed.

Lemma resume_outputs_reading (p : Pending) (r : Reply) (t : ChatWindow) :
  isUserScrolling t = true -> ~ In ScrollToBottom (snd (resume p r t)).
Proof.
  intros H.
  assert (forall l, ~ In ScrollToBottom (snd (setMessages l t))) as Hset.
  { intros l. rewrite setMessages_outputs, H. cbn.
    intros [Hx|[]]. discriminate Hx. }
  destruct p as [rid|c|rid|];
    destruct r as [[d|] [e|]|[d|] [e|]|[e|]];
    cbn -[setMessages updater exists_ In];
    rewrite ?app_nil_r; try apply Hset;
    try solve [intros Hx; cbn in Hx; intuition discriminate].
  - destruct (List.length d =? List.length (c_messages c))%nat;
      [intros []|apply Hset].
  - destruct (exists_ d (messages t)); [intros []|apply Hset].
Qed.

(** X3: while the user is reading earlier messages, nothing but the timer
    armed by a successful send scrolls the view: no load, poll or push
    does. *)
Theorem reading_suppresses_scroll (s : ChatWindow) (e : Event) :
  isUserScrolling s = true ->
  e <> SendScrollFired ->
  ~ In ScrollToBottom (snd (step s e)).
Proof.
  intros H He. unfold step.
  destruct e as [rid| |i|n r|st sh ch| | |v|]; cbn [step_act].
  - unfold setRequestId. destruct (rid =? requestId s)%string; [intros []|].
    unfold cleanup, effect, seq. cbn.
    destruct (subscription s); cbn; intuition discriminate.
  - destruct (refreshInterval s); cbn; intuition discriminate.
  - unfold onInsert. destruct (subscription s); cbn; intuition discriminate.
  - unfold resolve. destruct (nth_error (inflight s) n) as [p|]; [|intros []].
    destruct (answers p r); [|intros []].
    unfold seq, modify. cbn [fst snd app].
    apply resume_outputs_reading. exact H.
  - intros [].
  - unfold scrollTimeout_fired. destruct (scrollTimeout s); intros [].
  - contradiction.
  - intros [].
  - unfold handleSendMessage.
    destruct (falsy (trim (newMessage s))); [intros []|].
    destruct (user s); cbn; intuition discriminate.
Qed.

Lemma reading_suppresses_scroll_witness :
  let s := run (loaded [m1]) [Scroll 0 1000 100; InsertEvent "m2"] in
  isUserScrolling s = true /\
  messages (fst (step s (Resolve 0 (one m2)))) = [m1; m2] /\
  ~ In ScrollToBottom (snd (step s (Resolve 0 (one m2)))).
Proof.
  intro s. split; [reflexivity|]. split; [reflexivity|].
  apply (reading_suppresses_scroll s (Resolve 0 (one m2)) eq_refl).
  intros H. discriminate H.
Defined.

(** X4: the scroll flag is written by the scroll handler and by its timer
    only; loads, polls, pushes, a change of request and a send (with the
    scroll it forces) leave it as it is. *)
Theorem scroll_flag_frame (s : ChatWindow) (e : Event) :
  (forall a b c, e <> Scroll a b c) ->
  e <> ScrollTimeoutFired ->
  isUserScrolling (fst (step s e)) = isUserScrolling s.
Proof.
  intros Hs Ht. unfold step.
  destruct e as [rid| |i|n r|st sh ch| | |v|]; cbn [step_act].
  - unfold setRequestId. destruct (rid =? requestId s)%string; [reflexivity|].
    unfold cleanup, seq. cbn. destruct (subscription s); reflexivity.
  - destruct (refreshInterval s); reflexivity.
  - unfold onInsert. destruct (subscription s); reflexivity.
  - unfold resolve. destruct (nth_error (inflight s) n) as [p|]; [|reflexivity].
    destruct (answers p r); [|reflexivity].
    unfold seq, modify. cbn [fst snd].
    destruct (resume_frame p r (settled n s)) as [_ [_ [_ [_ [E _]]]]].
    exact E.
  - destruct (Hs st sh ch eq_refl).
  - contradiction.
  - unfold sendScroll_fired. destruct (sendScroll s); reflexivity.
  - reflexivity.
  - unfold handleSendMessage.
    destruct (falsy (trim (newMessage s))); [reflexivity|].
    destruct (user s); reflexivity.
Qed.

Lemma scroll_flag_frame_witness :
  let s := run (loaded [m1])
               [Scroll 0 1000 100; InputChange "hi"; Submit;
                Resolve 0 (InsertReply None)] in
  isUserScrolling s = true /\
  snd (step s SendScrollFired) = [ScrollToBottom] /\
  isUserScrolling (fst (step s SendScrollFired)) = true.
Proof.
  intro s. split; [reflexivity|]. split; [reflexivity|].
  apply (scroll_flag_frame s SendScrollFired).
  - intros a b c H. discriminate H.
  - intros H. discriminate H.
Defined.

(** ** Further facts: the channels and the change of request
    (lines 24-42) *)

Lemma step_attached (s : ChatWindow) (e : Event) :
  attached s -> attached (fst (step s e)).
Proof.
  intros [Hsub [c [Hint Hc]]]. unfold step, attached.
  destruct e as [rid| |i|n r|st sh ch| | |v|]; cbn [step_act].
  - unfold setRequestId.
    destruct (rid =? requestId s)%string; [split; eauto|].
    unfold cleanup, seq. cbn. rewrite Hsub. cbn. split; eauto.
  - rewrite Hint. cbn. split; eauto.
  - unfold onInsert. rewrite Hsub. cbn. split; eauto.
  - unfold resolve. destruct (nth_error (inflight s) n) as [p|];
      [|split; eauto].
    destruct (answers p r); [|split; eauto].
    unfold seq, modify. cbn [fst snd].
    destruct (resume_frame p r (settled n s)) as [E1 [_ [E2 [E3 _]]]].
    rewrite E1, E2, E3. cbn. split; eauto.
  - cbn. split; eauto.
  - unfold scrollTimeout_fired. destruct (scrollTimeout s); cbn; split; eauto.
  - unfold sendScroll_fired. destruct (sendScroll s); cbn; split; eauto.
  - cbn. split; eauto.
  - unfold handleSendMessage.
    destruct (falsy (trim (newMessage s))); [split; eauto|].
    destruct (user s); cbn; split; eauto.
Qed.


Lemma mount_attached (rid : string) (u : option User) :
  attached (fst (mount rid u)).
Proof. split; [reflexivity|]. eexists. split; reflexivity. Qed.


Lemma channels_app (o1 o2 : list Output) :
  forall open, channels open (o1 ++ o2) = channels (channels open o1) o2.
Proof.
  induction o1 as [|o o1 IH]; intros open; [reflexivity|].
  destruct o; cbn; apply IH.
Qed.

Lemma channels_quiet (o : list Output) (open : list string) :
  (forall x, In x o ->
     (forall r, x <> ChannelSubscribe r) /\
     (forall r, x <> ChannelUnsubscribe r)) ->
  channels open o = open.
Proof.
  induction o as [|x o IH]; intros H; [reflexivity|].
  destruct (H x (or_introl eq_refl)) as [H1 H2].
  destruct x; cbn;
    try (apply IH; intros y Hy; apply H; right; exact Hy).
  - destruct (H1 rid eq_refl).
  - destruct (H2 rid eq_refl).
Qed.

Lemma resume_quiet (p : Pending) (r : Reply) (t : ChatWindow) (x : Output) :
  In x (snd (resume p r t)) ->
  (forall rid, x <> ChannelSubscribe rid) /\
  (forall rid, x <> ChannelUnsubscribe rid).
Proof.
  assert (forall l, In x (snd (setMessages l t)) ->
            (forall rid, x <> ChannelSubscribe rid) /\
            (forall rid, x <> ChannelUnsubscribe rid)) as Hset.
  { intros l. rewrite setMessages_outputs.
    destruct (negb (isUserScrolling t) && _); cbn;
      intuition (subst; discriminate). }
  destruct p as [rid|c|rid|];
    destruct r as [[d|] [e|]|[d|] [e|]|[e|]];
    cbn -[setMessages updater exists_ In];
    rewrite ?app_nil_r; try apply Hset;
    try solve [cbn; intuition (subst; discriminate)].
  - destruct (List.length d =? List.length (c_messages c))%nat;
      [intros []|apply Hset].
  - destruct (exists_ d (messages t)); [intros []|apply Hset].
Qed.

Lemma step_channels (s : ChatWindow) (e : Event) :
  subscription s = Some (requestId s) ->
  channels [requestId s] (snd (step s e)) = [requestId (fst (step s e))].
Proof.
  intros Hsub. unfold step.
  assert (forall r, remove string_dec r [r] = []) as Hrm.
  { intros r. cbn. destruct (string_dec r r); [reflexivity|contradiction]. }
  destruct e as [rid| |i|n r|st sh ch| | |v|]; cbn [step_act].
  - unfold setRequestId.
    destruct (rid =? requestId s)%string; [reflexivity|].
    unfold cleanup, effect, seq. cbn -[remove]. rewrite Hsub.
    cbn -[remove]. rewrite Hrm. reflexivity.
  - destruct (refreshInterval s); reflexivity.
  - unfold onInsert. destruct (subscription s); reflexivity.
  - unfold resolve. destruct (nth_error (inflight s) n) as [p|];
      [|reflexivity].
    destruct (answers p r); [|reflexivity].
    unfold seq, modify. cbn [fst snd app].
    destruct (resume_frame p r (settled n s)) as [E _]. rewrite E.
    apply channels_quiet. intros x. apply resume_quiet.
  - reflexivity.
  - unfold scrollTimeout_fired. destruct (scrollTimeout s); reflexivity.
  - unfold sendScroll_fired. destruct (sendScroll s); reflexivity.
  - reflexivity.
  - unfold handleSendMessage.
    destruct (falsy (trim (newMessage s))); [reflexivity|].
    destruct (user s); reflexivity.
Qed.

Lemma trace_channels (evs : list Event) :
  forall s, attached s ->
  channels [requestId s] (trace s evs) = [requestId (run s evs)].
Proof.
  induction evs as [|e evs IH]; intros s H; cbn; [reflexivity|].
  rewrite channels_app, step_channels by apply H.
  apply IH. apply step_attached. exact H.
Qed.

(** X6: over the whole life of the view, every channel opened for a request
    that is no longer shown has been closed: after any trace exactly one
    channel is open, the one of the request shown. *)
Theorem one_channel_open
    (rid : string) (u : option User) (evs : list Event) :
  let s0 := fst (mount rid u) in
  channels [] (snd (mount rid u) ++ trace s0 evs) = [requestId (run s0 evs)].
Proof.
  cbv zeta. rewrite channels_app.
  change (channels [] (snd (mount rid u)))
    with [requestId (fst (mount rid u))].
  apply trace_channels. apply mount_attached.
Qed.

(** X7: a change of request keeps the state: what is rendered just after
    it is what was rendered just before (the transcript of the previous
    request, and no loading indicator if the first load had resolved). *)
Theorem request_change_keeps_the_view (s : ChatWindow) (rid : string) :
  render (fst (step s (RequestIdChanged rid))) = render s.
Proof.
  unfold step, step_act, setRequestId.
  destruct (rid =? requestId s)%string; [reflexivity|].
  unfold cleanup, seq. cbn. destruct (subscription s); reflexivity.
Qed.

(** X8: the clean-up cancels the quiet-timer without clearing the flag it
    was to clear: when the request changes while the user is reading, the
    flag stays set with no timer left to reset it, so no merge scrolls the
    new conversation until the next scroll event. *)
Theorem request_change_freezes_reading
    (s : ChatWindow) (rid : string) (n : nat) (r : Reply) :
  (rid =? requestId s)%string = false ->
  isUserScrolling s = true ->
  let s' := fst (step s (RequestIdChanged rid)) in
  isUserScrolling s' = true /\
  scrollTimeout s' = None /\
  step s' ScrollTimeoutFired = (s', []) /\
  ~ In ScrollToBottom (snd (step s' (Resolve n r))).
Proof.
  intros Hrid Hread s'.
  assert (isUserScrolling s' = true /\ scrollTimeout s' = None) as [H1 H2].
  { subst s'. unfold step, step_act, setRequestId. rewrite Hrid.
    unfold cleanup, seq. cbn. destruct (subscription s); cbn; auto. }
  repeat split; try assumption.
  - unfold step, step_act, scrollTimeout_fired. rewrite H2. reflexivity.
  - unfold step, step_act, resolve.
    destruct (nth_error (inflight s') n) as [p|]; [|intros []].
    destruct (answers p r); [|intros []].
    unfold seq, modify. cbn [fst snd app].
    apply resume_outputs_reading. exact H1.
Qed.

Lemma request_change_freezes_reading_witness :
  let s := run (loaded [m1]) [Scroll 0 1000 100] in
  let s' := fst (step s (RequestIdChanged "r2")) in
  scrollTimeout s = Some 3000%Z /\
  isUserScrolling s' = true /\
  scrollTimeout s' = None /\
  ~ In ScrollToBottom (snd (step s' (Resolve 0 (ok [m1; m2; m3])))).
Proof.
  intros s s'. split; [reflexivity|].
  destruct (request_change_freezes_reading s "r2" 0 (ok [m1; m2; m3])
              eq_refl eq_refl) as [H1 [H2 [_ H4]]].
  repeat split; assumption.
Defined.

(** ** C5: a failed initial load *)







(** ** Further facts: the loading indicator (lines 16, 52-70, 178-184) *)

Lemma resume_loading (p : Pending) (r : Reply) (t : ChatWindow) :
  loading (fst (resume p r t)) =
  if is_fetch p && answers p r then false else loading t.
Proof.
  destruct p as [rid|c|rid|];
    destruct r as [[d|] [e|]|[d|] [e|]|[e|]];
    cbn -[setMessages updater exists_];
    rewrite ?setMessages_state; try reflexivity.
  - destruct (List.length d =? List.length (c_messages c))%nat;
      rewrite ?setMessages_state; reflexivity.
  - destruct (exists_ d (messages t));
      rewrite ?setMessages_state; reflexivity.
Qed.

Lemma step_loading (s : ChatWindow) (e : Event) :
  loading (fst (step s e)) =
  match e with
  | Resolve n r =>
      match nth_error (inflight s) n with
      | Some p => if is_fetch p && answers p r then false else loading s
      | None => loading s
      end
  | _ => loading s
  end.
Proof.
  unfold step.
  destruct e as [rid| |i|n r|st sh ch| | |v|]; cbn [step_act].
  - unfold setRequestId. destruct (rid =? requestId s)%string; [reflexivity|].
    unfold cleanup, seq. cbn. destruct (subscription s); reflexivity.
  - destruct (refreshInterval s); reflexivity.
  - unfold onInsert. destruct (subscription s); reflexivity.
  - unfold resolve. destruct (nth_error (inflight s) n) as [p|]; [|reflexivity].
    destruct (answers p r) eqn:E.
    + unfold seq, modify. cbn [fst snd]. rewrite resume_loading, E.
      reflexivity.
    + rewrite andb_false_r. reflexivity.
  - reflexivity.
  - unfold scrollTimeout_fired. destruct (scrollTimeout s); reflexivity.
  - unfold sendScroll_fired. destruct (sendScroll s); reflexivity.
  - reflexivity.
  - unfold handleSendMessage.
    destruct (falsy (trim (newMessage s))); [reflexivity|].
    destruct (user s); reflexivity.
Qed.

(** X9: once the loading indicator is gone it never comes back, whatever
    happens afterwards, a change of request and its new initial fetch
    included. *)
Theorem loading_never_returns (s : ChatWindow) (evs : list Event) :
  loading s = false -> render (run s evs) <> Spinner.
Proof.
  revert s. induction evs as [|e evs IH]; intros s H; cbn.
  - unfold render. rewrite H. discriminate.
  - apply IH. rewrite step_loading.
    destruct e; try exact H.
    destruct (nth_error (inflight s) n) as [p|]; [|exact H].
    destruct (is_fetch p && answers p r); [reflexivity|exact H].
Qed.

Lemma loading_never_returns_witness :
  render (run (loaded [])
              [RequestIdChanged "r2"; IntervalTick;
               Resolve 0 (ListReply None failed)]) <> Spinner.
Proof.
  apply (loading_never_returns (loaded [])). reflexivity.
Defined.

Lemma existsb_remove_nth (f : Pending -> bool) (l : list Pending) :
  forall n p, nth_error l n = Some p -> f p = false ->
  existsb f (remove_nth n l) = existsb f l.
Proof.
  induction l as [|a l IH]; intros [|n] p Hn Hp; try discriminate Hn.
  - cbn in Hn. injection Hn as ->. cbn. rewrite Hp. reflexivity.
  - cbn in Hn. change (remove_nth (S n) (a :: l)) with (a :: remove_nth n l).
    cbn. rewrite (IH n p Hn Hp). reflexivity.
Qed.

Lemma step_fetching (s : ChatWindow) (e : Event) :
  (loading s = true -> existsb is_fetch (inflight s) = true) ->
  loading (fst (step s e)) = true ->
  existsb is_fetch (inflight (fst (step s e))) = true.
Proof.
  intros H. rewrite step_loading. unfold step.
  destruct e as [rid| |i|n r|st sh ch| | |v|]; cbn [step_act]; intros Hl.
  - unfold setRequestId. destruct (rid =? requestId s)%string; [auto|].
    unfold cleanup, seq. cbn. destruct (subscription s); cbn;
      rewrite existsb_app; cbn; apply orb_true_r.
  - destruct (refreshInterval s); cbn; [|auto].
    rewrite existsb_app, (H Hl). reflexivity.
  - unfold onInsert. destruct (subscription s); cbn; [|auto].
    rewrite existsb_app, (H Hl). reflexivity.
  - unfold resolve. destruct (nth_error (inflight s) n) as [p|] eqn:Hn; [|auto].
    destruct (answers p r) eqn:E;
      [|rewrite andb_false_r in Hl; exact (H Hl)].
    rewrite andb_true_r in Hl. destruct (is_fetch p) eqn:Hp; [discriminate|].
    unfold seq, modify. cbn [fst snd].
    destruct (resume_frame p r (settled n s)) as [_ [_ [_ [_ [_ [_ Ei]]]]]].
    rewrite Ei. cbn. rewrite (existsb_remove_nth _ _ _ _ Hn Hp). auto.
  - auto.
  - unfold scrollTimeout_fired. destruct (scrollTimeout s); cbn; auto.
  - unfold sendScroll_fired. destruct (sendScroll s); cbn; auto.
  - auto.
  - unfold handleSendMessage.
    destruct (falsy (trim (newMessage s))); [auto|].
    destruct (user s); cbn; [|auto].
    rewrite existsb_app, (H Hl). reflexivity.
Qed.

Lemma run_fetching (evs : list Event) :
  forall s, (loading s = true -> existsb is_fetch (inflight s) = true) ->
  loading (run s evs) = true ->
  existsb is_fetch (inflight (run s evs)) = true.
Proof.
  induction evs as [|e evs IH]; intros s H; cbn.
  - exact H.
  - apply IH. apply step_fetching. exact H.
Qed.

(** X10: the loading indicator is never left alone: whenever it shows, a
    [fetchMessages] is in flight, and any reply to that call, a failure
    included, takes the indicator away. *)
Theorem spinner_awaits_a_fetch
    (rid : string) (u : option User) (evs : list Event) :
  let s := run (fst (mount rid u)) evs in
  render s = Spinner ->
  exists n rid',
    nth_error (inflight s) n = Some (PFetch rid') /\
    forall data error,
      render (fst (step s (Resolve n (ListReply data error)))) <> Spinner.
Proof.
  intros s Hr.
  assert (loading s = true) as Hl.
  { unfold render in Hr. destruct (loading s); [reflexivity|discriminate]. }
  assert (existsb is_fetch (inflight s) = true) as Hex.
  { apply run_fetching; [reflexivity|exact Hl]. }
  apply existsb_exists in Hex. destruct Hex as [p [Hin Hp]].
  destruct p as [rid'|c|rid'|]; try discriminate Hp.
  apply In_nth_error in Hin. destruct Hin as [n Hn].
  exists n, rid'. split; [exact Hn|].
  intros data error. unfold render. rewrite step_loading, Hn. cbn.
  discriminate.
Qed.

Lemma spinner_awaits_a_fetch_witness :
  let s := run (fst (mount "r1" (Some alice))) [IntervalTick; Submit] in
  render s = Spinner /\
  exists n rid',
    nth_error (inflight s) n = Some (PFetch rid') /\
    forall data error,
      render (fst (step s (Resolve n (ListReply data error)))) <> Spinner.
Proof.
  intro s. split; [reflexivity|].
  apply (spinner_awaits_a_fetch "r1" (Some alice) [IntervalTick; Submit]).
  reflexivity.
Defined.

(** ** Further facts: what is rendered (lines 186-250) *)

(** X11: when the store answers with id-unique lists, then once the
    loading indicator is gone the view is the chat, its bubbles are the
    messages of the transcript, one each and in order, and no two of them
    have the same React key. *)
Theorem rendered_keys_are_unique
    (rid : string) (u : option User) (evs : list Event) :
  Forall unique_reply evs ->
  let s := run (fst (mount rid u)) evs in
  loading s = false ->
  exists bubbles input disabled working,
    render s = Chat bubbles input disabled working /\
    map key bubbles = ids (messages s) /\
    map text bubbles = map content (messages s) /\
    NoDup (map key bubbles).
Proof.
  intros Hall s Hl. unfold render. rewrite Hl.
  do 4 eexists. split; [reflexivity|].
  assert (map key (map (bubble (user s)) (messages s)) = ids (messages s))
    as Hk.
  { unfold ids. rewrite map_map. reflexivity. }
  rewrite Hk. repeat split.
  - rewrite map_map. reflexivity.
  - apply run_NoDup; [constructor|exact Hall].
Qed.

Lemma rendered_keys_are_unique_witness :
  let evs := [Resolve 0 (ok [m1; m2]); InsertEvent "m2";
              Resolve 0 (one m2)] in
  let s := run (fst (mount "r1" (Some alice))) evs in
  loading s = false /\
  exists bubbles input disabled working,
    render s = Chat bubbles input disabled working /\
    map key bubbles = ["m1"; "m2"] /\
    map text bubbles = map content (messages s) /\
    NoDup (map key bubbles).
Proof.
  intros evs s. split; [reflexivity|].
  apply (rendered_keys_are_unique "r1" (Some alice) evs).
  - repeat constructor; cbn; intuition discriminate.
  - reflexivity.
Defined.

(** ** Further facts: what is sent (lines 152-176) *)

Lemma trimEnd_idempotent (s : string) : trimEnd (trimEnd s) = trimEnd s.
Proof.
  induction s as [|c r IH]; [reflexivity|]. cbn.
  destruct (trimEnd r) as [|c' r'] eqn:E.
  - destruct (is_space c) eqn:Ec; cbn; [reflexivity|].
    rewrite Ec. reflexivity.
  - cbn -[trimEnd]. change (trimEnd (String c (String c' r')))
      with (match trimEnd (String c' r') with
            | EmptyString =>
                if is_space c then EmptyString else String c EmptyString
            | r0 => String c r0
            end).
    rewrite IH. reflexivity.
Qed.

Lemma trimStart_head (s : string) :
  trimStart s = EmptyString \/
  exists c r, trimStart s = String c r /\ is_space c = false.
Proof.
  induction s as [|c r IH]; [left; reflexivity|]. cbn.
  destruct (is_space c) eqn:Ec; [exact IH|].
  right. exists c, r. split; [reflexivity|exact Ec].
Qed.

Lemma trimEnd_head (c : ascii) (r : string) :
  is_space c = false -> exists r', trimEnd (String c r) = String c r'.
Proof.
  intros Ec. cbn. destruct (trimEnd r) as [|c' r'].
  - rewrite Ec. eexists. reflexivity.
  - eexists. reflexivity.
Qed.

Lemma trim_idempotent (s : string) : trim (trim s) = trim s.
Proof.
  unfold trim. destruct (trimStart_head s) as [E|[c [r [E Ec]]]]; rewrite E.
  - reflexivity.
  - destruct (trimEnd_head c r Ec) as [r' E']. rewrite E'.
    cbn [trimStart]. rewrite Ec, <- E'. apply trimEnd_idempotent.
Qed.

(** The outputs of a continuation are updates of the transcript, scrolls
    and console lines. *)
Lemma resume_outputs (p : Pending) (r : Reply) (t : ChatWindow) (x : Output) :
  In x (snd (resume p r t)) ->
  (exists l, x = SetMessages l) \/ x = ScrollToBottom \/
  x = ConsoleError \/ x = ConsoleDebug.
Proof.
  assert (forall l, In x (snd (setMessages l t)) ->
            (exists l, x = SetMessages l) \/ x = ScrollToBottom \/
            x = ConsoleError \/ x = ConsoleDebug) as Hset.
  { intros l. rewrite setMessages_outputs.
    destruct (negb (isUserScrolling t) && _); cbn;
      intuition (subst; eauto). }
  destruct p as [rid|c|rid|];
    destruct r as [[d|] [e|]|[d|] [e|]|[e|]];
    cbn -[setMessages updater exists_ In];
    rewrite ?app_nil_r; try apply Hset;
    try solve [cbn; intuition (subst; eauto)].
  - destruct (List.length d =? List.length (c_messages c))%nat;
      [intros []|apply Hset].
  - destruct (exists_ d (messages t)); [intros []|apply Hset].
Qed.

(** X12: the component writes to the store only when the form is
    submitted, and what it writes is never blank: the body is the trimmed
    input, not empty and without white space around it, sent for the
    request shown in the name of the signed-in user. *)
Theorem inserts_are_trimmed_and_attributed
    (s : ChatWindow) (e : Event) (a b c : string) :
  In (Insert a b c) (snd (step s e)) ->
  e = Submit /\
  user s = Some {| user_id := a |} /\
  b = requestId s /\
  c = trim (newMessage s) /\
  c <> "" /\
  trim c = c.
Proof.
  unfold step.
  destruct e as [rid| |i|n r|st sh ch| | |v|]; cbn [step_act].
  - unfold setRequestId. destruct (rid =? requestId s)%string; [intros []|].
    unfold cleanup, effect, seq. cbn.
    destruct (subscription s); cbn; intuition discriminate.
  - destruct (refreshInterval s); cbn; intuition discriminate.
  - unfold onInsert. destruct (subscription s); cbn; intuition discriminate.
  - unfold resolve. destruct (nth_error (inflight s) n) as [p|]; [|intros []].
    destruct (answers p r); [|intros []].
    unfold seq, modify. cbn [fst snd app]. intros H.
    apply resume_outputs in H.
    destruct H as [[l H]|[H|[H|H]]]; discriminate H.
  - intros [].
  - unfold scrollTimeout_fired. destruct (scrollTimeout s); intros [].
  - unfold sendScroll_fired. destruct (sendScroll s); cbn;
      intuition discriminate.
  - intros [].
  - unfold handleSendMessage.
    destruct (falsy (trim (newMessage s))) eqn:Hf; [intros []|].
    destruct (user s) as [[uid]|]; [|intros []].
    cbn. intros [H|[]]. injection H as <- <- <-.
    repeat split.
    + intros E. rewrite E in Hf. discriminate Hf.
    + apply trim_idempotent.
Qed.

Lemma inserts_are_trimmed_and_attributed_witness :
  let s := run (loaded [m1]) [InputChange "  see you at 5  "] in
  snd (step s Submit) = [Insert "u1" "r1" "see you at 5"] /\
  trim "see you at 5" = "see you at 5".
Proof.
  intro s. split; [reflexivity|].
  apply (inserts_are_trimmed_and_attributed s Submit "u1" "r1").
  left. reflexivity.
Defined.

(** X13: the text being typed is written by typing and cleared by a
    successful send, and by nothing else: no load, poll, push, scroll or
    change of request touches it, and a send that succeeds clears whatever
    the input holds when the reply arrives. *)
Theorem input_frame (s : ChatWindow) (e : Event) :
  (forall v, e <> InputChange v) ->
  newMessage (fst (step s e)) = newMessage s \/
  (newMessage (fst (step s e)) = "" /\
   exists n, e = Resolve n (InsertReply None) /\
             nth_error (inflight s) n = Some PSend).
Proof.
  intros Hv. unfold step.
  destruct e as [rid| |i|n r|st sh ch| | |v|]; cbn [step_act].
  - left. unfold setRequestId.
    destruct (rid =? requestId s)%string; [reflexivity|].
    unfold cleanup, seq. cbn. destruct (subscription s); reflexivity.
  - left. destruct (refreshInterval s); reflexivity.
  - left. unfold onInsert. destruct (subscription s); reflexivity.
  - unfold resolve.
    destruct (nth_error (inflight s) n) as [p|] eqn:Hn; [|left; reflexivity].
    destruct p as [rid|c|rid|];
      destruct r as [[d|] [e|]|[d|] [e|]|[e|]];
      cbn -[setMessages updater exists_];
      rewrite ?setMessages_state; try (left; reflexivity).
    + left. destruct (List.length d =? List.length (c_messages c))%nat;
        rewrite ?setMessages_state; reflexivity.
    + left. destruct (exists_ d (messages s));
        rewrite ?setMessages_state; reflexivity.
    + right. split; [reflexivity|]. exists n. split; [reflexivity|exact Hn].
  - left. reflexivity.
  - left. unfold scrollTimeout_fired. destruct (scrollTimeout s); reflexivity.
  - left. unfold sendScroll_fired. destruct (sendScroll s); reflexivity.
  - destruct (Hv v eq_refl).
  - left. unfold handleSendMessage.
    destruct (falsy (trim (newMessage s))); [reflexivity|].
    destruct (user s); reflexivity.
Qed.

Lemma input_frame_witness :
  let s := run (loaded [m1])
               [InputChange "first"; Submit; InputChange "second"] in
  newMessage s = "second" /\
  (newMessage (fst (step s (Resolve 0 (ok [m1; m2])))) = "second" \/
   (newMessage (fst (step s (Resolve 0 (ok [m1; m2])))) = "" /\
    exists n, Resolve 0 (ok [m1; m2]) = Resolve n (InsertReply None) /\
              nth_error (inflight s) n = Some PSend)) /\
  newMessage (fst (step s (Resolve 0 (InsertReply None)))) = "".
Proof.
  intro s. split; [reflexivity|]. split; [|reflexivity].
  apply (input_frame s (Resolve 0 (ok [m1; m2]))).
  intros v H. discriminate H.
Defined.

(** ** Further facts: polls and pushes *)

(** X14: as long as the view stays on the request it was mounted with, a
    poll that answers with a non-empty list sets the transcript to that
    list, whatever the transcript was; a poll that answers with the empty
    list leaves the transcript as it is. *)
Theorem poll_after_mount_sets_the_list
    (rid : string) (u : option User) (evs : list Event)
    (n : nat) (c : Closure) (d : list Message) :
  Forall same_request evs ->
  let s := run (fst (mount rid u)) evs in
  nth_error (inflight s) n = Some (PPoll c) ->
  messages (fst (step s (Resolve n (ok d)))) =
  match d with [] => messages s | _ => d end.
Proof.
  intros Hall s Hn.
  assert (first_render s) as [_ Hp].
  { apply run_first_render; [apply mount_first_render|assumption]. }
  assert (c_messages c = []) as Hc.
  { rewrite Forall_forall in Hp. apply (Hp (PPoll c)).
    apply nth_error_In with n. assumption. }
  rewrite resolve_messages. unfold merged, ok. rewrite Hn, Hc.
  destruct d; reflexivity.
Qed.

Lemma poll_after_mount_sets_the_list_witness :
  let evs := [Resolve 0 (ok [m2]); InsertEvent "m1"; Resolve 0 (one m1);
              IntervalTick] in
  let s := run (fst (mount "r1" (Some alice))) evs in
  messages s = [m2; m1] /\
  messages (fst (step s (Resolve 0 (ok [m1; m2])))) = [m1; m2] /\
  messages (fst (step s (Resolve 0 (ok [])))) = [m2; m1].
Proof.
  intros evs s.
  assert (Forall same_request evs) as Hall.
  { repeat constructor. }
  split; [reflexivity|]. split.
  - exact (poll_after_mount_sets_the_list "r1" (Some alice) evs 0
             {| c_requestId := "r1"; c_messages := [] |} [m1; m2]
             Hall eq_refl).
  - reflexivity.
Defined.

Lemma exists_app (a : Message) (l1 l2 : list Message) :
  exists_ a (l1 ++ l2) = exists_ a l1 || exists_ a l2.
Proof. unfold exists_. apply existsb_app. Qed.

(** X15: pushes compose: merging the same pushed message twice is merging
    it once, and two pushed messages merged in either order give
    transcripts with the same ids, the same number of times each. *)
Theorem pushes_commute_up_to_order (a b : Message) (l : list Message) :
  updater a (updater a l) = updater a l /\
  Permutation (ids (updater a (updater b l))) (ids (updater b (updater a l))).
Proof.
  split.
  - unfold updater. destruct (exists_ a l) eqn:E; [rewrite E; reflexivity|].
    rewrite exists_app. cbn. rewrite String.eqb_refl, orb_true_r.
    reflexivity.
  - unfold updater.
    destruct (exists_ a l) eqn:Ea, (exists_ b l) eqn:Eb;
      rewrite ?Ea, ?Eb, ?exists_app, ?Ea, ?Eb; cbn;
      try apply Permutation_refl.
    rewrite (String.eqb_sym (id a) (id b)).
    destruct (id b =? id a)%string eqn:E; cbn.
    + apply String.eqb_eq in E. unfold ids. rewrite !map_app. cbn.
      rewrite E. apply Permutation_refl.
    + unfold ids. rewrite !map_app. cbn. rewrite <- !app_assoc. cbn.
      apply Permutation_app_head. apply perm_swap.
Qed.

(** ** Further facts: the provider of [useAuth()] *)

Module AuthFacts.
Import Auth.

Lemma step_roles_exclusive (s : AuthProvider) (e : Event) :
  isAdmin s && isMentor s = false ->
  isAdmin (fst (step s e)) && isMentor (fst (step s e)) = false.
Proof.
  intros H. destruct e as [sess|sess|n r]; cbn.
  - destruct (awaitingSession s); [|exact H]. destruct sess; exact H.
  - destruct sess; [exact H|reflexivity].
  - destruct (nth_error (fetching s) n); [|exact H].
    unfold fetchProfile_resume. destruct (error r); [exact H|].
    destruct (data r) as [p|]; [|exact H].
    cbn. destruct (role p); reflexivity.
Qed.

(** X16: the provider never reports a user as both admin and mentor,
    whatever the order in which sessions and profiles arrive. *)
Theorem roles_are_exclusive (evs : list Event) :
  let s := run (fst mount) evs in
  isAdmin s && isMentor s = false.
Proof.
  cbv zeta.
  assert (isAdmin (fst mount) && isMentor (fst mount) = false) as H0
    by reflexivity.
  revert H0. generalize (fst mount).
  induction evs as [|e evs IH]; intros s H; cbn.
  - exact H.
  - apply IH. apply step_roles_exclusive. exact H.
Qed.




Lemma step_in_progress (s : AuthProvider) (e : Event) :
  (loading s = true -> in_progress s) ->
  loading (fst (step s e)) = true -> in_progress (fst (step s e)).
Proof.
  intros H. unfold in_progress. destruct e as [sess|sess|n r]; cbn.
  - destruct (awaitingSession s) eqn:Ea; [|exact H].
    destruct sess; cbn; [|discriminate].
    intros _. right. intros E. apply app_eq_nil in E.
    destruct E as [_ E]. discriminate E.
  - destruct sess; cbn; [|discriminate].
    intros _. right. intros E. apply app_eq_nil in E.
    destruct E as [_ E]. discriminate E.
  - destruct (nth_error (fetching s) n); [|exact H].
    unfold fetchProfile_resume. destruct (error r); [discriminate|].
    destruct (data r); discriminate.
Qed.

(** X18: the provider is never left loading with nothing under way: while
    [loading] is set, either [getSession()] has not answered yet or a
    profile fetch is in flight; and every answer to a profile fetch, an
    error included, ends the loading. *)
Theorem loading_has_a_cause (evs : list Event) :
  let s := run (fst mount) evs in
  (loading s = true -> in_progress s) /\
  (forall n uid r,
      nth_error (fetching s) n = Some uid ->
      loading (fst (step s (ProfileResolved n r))) = false).
Proof.
  cbv zeta. split.
  - assert (loading (fst mount) = true -> in_progress (fst mount)) as H0.
    { intros _. left. reflexivity. }
    revert H0. generalize (fst mount).
    induction evs as [|e evs IH]; intros s H; cbn.
    + exact H.
    + apply IH. apply step_in_progress. exact H.
  - intros n uid r Hn. unfold step. rewrite Hn. unfold fetchProfile_resume.
    destruct (error r); [reflexivity|]. destruct (data r); reflexivity.
Qed.

(** X19: a profile reply is applied whatever the session has become while
    the fetch was in flight: the profile and the roles of the user the
    fetch was made for are stored, and [user] is left as it is, be it
    another user or none. *)
Theorem profile_reply_ignores_session
    (s : AuthProvider) (n : nat) (uid : string) (p : Profile) :
  nth_error (fetching s) n = Some uid ->
  let s' := fst (step s (ProfileResolved n (found p))) in
  profile s' = Some p /\
  isAdmin s' = is_admin (role p) /\
  isMentor s' = is_mentor (role p) /\
  user s' = user s /\ session s' = session s.
Proof.
  intros Hn. cbv zeta. unfold step. rewrite Hn. repeat split.
Qed.

Lemma profile_reply_ignores_session_witness :
  let s := run (fst mount)
               [SessionResolved (signed_in "u1"); AuthStateChange None] in
  let s' := fst (step s (ProfileResolved 0
                           (found (profile_of "u1" role_admin)))) in
  user s = None /\ isAdmin s = false /\
  user s' = None /\ isAdmin s' = true.
Proof.
  intros s s'. split; [reflexivity|]. split; [reflexivity|].
  destruct (profile_reply_ignores_session s 0 "u1"
              (profile_of "u1" role_admin) eq_refl) as [_ [Ha [_ [Hu _]]]].
  split; [exact Hu|exact Ha].
Defined.

End AuthFacts.
